(** * Ham-Digital / HamTextClassifierTraining

    A shallow embedding of [train_model.py] (feature extraction, the
    accuracy gate of the entry point) and of [generate_data.py] (dataset
    assembly, shuffle, split and row clean-up), with the properties of the
    specification proved or refuted against it.

    Modelling conventions

    - A Python [str] is a sequence of Unicode code points: [list N].
    - A Python [int] is a [Z]; a Python [float] is an exact real [R]
      (rounding is idealised away: every statement about a float value is
      a statement under exact arithmetic). The sign of the entropy is also
      shown with the rounding written out, and no upper bound of the
      entropy is drawn from the exact sum.
    - The [features] dict is a [gmap] from key strings to reals (dict
      equality ignores insertion order); the [freq] dict of
      [shannon_entropy] is iterated, so it is an insertion-ordered
      association list.
    - In [TrainRun] the feature dicts are objects of a store and
      [extract_features] is the code that creates one and writes it, key by
      key; what it leaves in the store is the map of
      [TrainModel.extract_features].
    - The Unicode character database of the Python runtime ([str.isalpha],
      [str.upper], ..., and the case folding of [re.IGNORECASE]) is not part
      of the repository: it is a parameter, a record [unicode], and
      [ascii_db] is its ASCII fragment, on which the functions can be run. *)

From Stdlib Require Import ZArith List Bool Reals Lra Lia String Ascii.
From Stdlib Require Import QArith Qround Qabs Permutation DecimalString.
From stdpp Require Import gmap.
Import ListNotations.

(** Python strings: sequences of code points. *)
Abbreviation codepoint := N (only parsing).
Abbreviation pystr := (list N) (only parsing).

(* ===================================================================== *)
(** * Python built-ins used by the sources *)
(* ===================================================================== *)

Module Py.

(** A string literal of the source, as a sequence of code points. *)
Definition lit (s : string) : pystr :=
  List.map N_of_ascii (list_ascii_of_string s).

(** The character tables of the runtime. [upper] is the full upper-case
    mapping of one character (it may yield several code points);
    [casematch a b] says that [a] matches the pattern character [b] under
    [re.IGNORECASE]. *)
Record unicode := Unicode {
  isalpha : codepoint -> bool;
  isdigit : codepoint -> bool;
  isdecimal : codepoint -> bool;
  isalnum : codepoint -> bool;
  isupper : codepoint -> bool;
  isspace : codepoint -> bool;
  upper : codepoint -> pystr;
  casematch : codepoint -> codepoint -> bool
}.

Definition in_range (lo hi c : N) : bool := (N.leb lo c && N.leb c hi)%bool.

(** The ASCII fragment of the tables: code points below 128 are classified
    as Python classifies them; the others are left unclassified and
    unchanged by [upper]. *)
Definition ascii_db : unicode := {|
  isalpha c := (in_range 65 90 c || in_range 97 122 c)%bool;
  isdigit c := in_range 48 57 c;
  isdecimal c := in_range 48 57 c;
  isalnum c := (in_range 65 90 c || in_range 97 122 c || in_range 48 57 c)%bool;
  isupper c := in_range 65 90 c;
  isspace c := (in_range 9 13 c || in_range 28 32 c)%bool;
  upper c := [if in_range 97 122 c then (c - 32)%N else c];
  casematch a b :=
    N.eqb (if in_range 97 122 a then (a - 32)%N else a)
          (if in_range 97 122 b then (b - 32)%N else b)
|}.

(** [len(text)] *)
Definition len (text : pystr) : Z := Z.of_nat (List.length text).

(** [text[i:j]] *)
Definition slice (i j : nat) (text : pystr) : pystr :=
  firstn (j - i) (skipn i text).

(** [text.replace(old, new)] for single-character [old] and [new]. *)
Definition replace (old new : codepoint) (text : pystr) : pystr :=
  List.map (fun c => if N.eqb c old then new else c) text.

Section WithTables.
Context (U : unicode).

(** [text.upper()]: the runtime upper-cases character by character. *)
Definition str_upper (text : pystr) : pystr :=
  List.flat_map (upper U) text.

(** [text.split()]: maximal runs of non-whitespace characters. [cur] is
    the word being read, most recent character first. *)
Fixpoint split_from (cur : pystr) (text : pystr) : list pystr :=
  match text with
  | [] => match cur with [] => [] | _ => [List.rev cur] end
  | c :: rest =>
      if isspace U c
      then match cur with
           | [] => split_from [] rest
           | _ => List.rev cur :: split_from [] rest
           end
      else split_from (c :: cur) rest
  end.

Definition split (text : pystr) : list pystr := split_from [] text.
End WithTables.

(** [max(xs)] of a non-empty list of ints. *)
Definition max_list (xs : list Z) : Z :=
  match xs with
  | [] => 0%Z
  | x :: rest => List.fold_left Z.max rest x
  end.

(** [sum(xs)] *)
Definition sum_list (xs : list Z) : Z := List.fold_left Z.add xs 0%Z.

(** [x < y] on floats that are numbers. *)
Definition Qlt_bool (x y : Q) : bool := negb (Qle_bool y x).

(** [math.log2] *)
Definition log2 (x : R) : R := (ln x / ln 2)%R.

End Py.

(* ===================================================================== *)
(** * The fragment of [re] used by the compiled patterns *)
(* ===================================================================== *)

Module Re.
Import Py.

(** Pattern syntax. A literal character [x] is the set [[x-x]]; [r?] is
    [r{0,1}]. *)
Inductive regex :=
| CharSet (ranges : list (codepoint * codepoint))
| Digit
| WordBoundary
| Cat (r1 r2 : regex)
| Alt (r1 r2 : regex)
| Repeat (lo hi : nat) (r : regex).

(** A compiled pattern: [re.compile(r, flags)]. *)
Record pattern := Pattern { body : regex; ignorecase : bool }.

(** A position in the subject string: the characters before it (nearest
    first) and the characters from it on. *)
Record cursor := Cursor { before : pystr; after : pystr }.

Definition cursor_at (i : nat) (text : pystr) : cursor :=
  {| before := List.rev (firstn i text); after := skipn i text |}.

Definition chars_of_range (lo hi : codepoint) : pystr :=
  List.map (fun k => (lo + N.of_nat k)%N) (seq 0 (N.to_nat (hi + 1 - lo))).

Fixpoint iterate {A} (k : nat) (f : A -> A) (x : A) : A :=
  match k with
  | O => x
  | S k' => iterate k' f (f x)
  end.

Section Matching.
Context (U : unicode).

(** [\w] on [str] patterns: alphanumeric or underscore. *)
Definition is_word (c : codepoint) : bool := (isalnum U c || N.eqb c 95)%bool.

Definition word_before (cur : cursor) : bool :=
  match before cur with c :: _ => is_word c | [] => false end.

Definition word_after (cur : cursor) : bool :=
  match after cur with c :: _ => is_word c | [] => false end.

Definition in_set (ic : bool) (ranges : list (codepoint * codepoint)) (c : codepoint) : bool :=
  List.existsb
    (fun r => if ic
              then List.existsb (casematch U c) (chars_of_range (fst r) (snd r))
              else in_range (fst r) (snd r) c)
    ranges.

(** Consume one character satisfying [p]. *)
Definition eat (p : codepoint -> bool) (cur : cursor) : list cursor :=
  match after cur with
  | c :: rest =>
      if p c then [ {| before := c :: before cur; after := rest |} ] else []
  | [] => []
  end.

(** All the positions at which a match of [r] begun at [cur] can end.
    [search] only asks whether there is one, so the order in which the
    backtracking engine would try them plays no part. *)
Fixpoint run (ic : bool) (r : regex) (cur : cursor) : list cursor :=
  match r with
  | CharSet ranges => eat (in_set ic ranges) cur
  | Digit => eat (isdecimal U) cur
  | WordBoundary => if xorb (word_before cur) (word_after cur) then [cur] else []
  | Cat r1 r2 => List.flat_map (run ic r2) (run ic r1 cur)
  | Alt r1 r2 => run ic r1 cur ++ run ic r2 cur
  | Repeat lo hi r' =>
      List.flat_map
        (fun k => iterate k (List.flat_map (run ic r')) [cur])
        (seq lo (hi + 1 - lo))
  end.

Definition matches_at (p : pattern) (text : pystr) (i : nat) : bool :=
  match run (ignorecase p) (body p) (cursor_at i text) with
  | [] => false
  | _ :: _ => true
  end.

(** [p.search(text)] as a truth value. *)
Definition search (p : pattern) (text : pystr) : bool :=
  List.existsb (matches_at p text) (seq 0 (List.length text + 1)).
End Matching.

(** Pattern-building helpers. *)
Definition chr (s : string) : regex :=
  match lit s with
  | c :: _ => CharSet [(c, c)]
  | [] => CharSet []
  end.

Definition rng (lo hi : string) : regex :=
  match lit lo, lit hi with
  | a :: _, b :: _ => CharSet [(a, b)]
  | _, _ => CharSet []
  end.

Definition opt (r : regex) : regex := Repeat 0 1 r.

End Re.

(* ===================================================================== *)
(** * train_model.py *)
(* ===================================================================== *)

Module TrainModel.
Import Py Re.

Local Open Scope R_scope.

Infix "+++" := Cat (at level 60, right associativity).

(** ** The compiled patterns *)

(** [CALLSIGN_RE = re.compile(r"[A-Z]{1,2}[0-9][A-Z]{1,3}")] *)
Definition CALLSIGN_RE : pattern :=
  Pattern (Repeat 1 2 (rng "A" "Z") +++ rng "0" "9" +++ Repeat 1 3 (rng "A" "Z")) false.

(** [RST_RE = re.compile(r"\b[1-5][1-9][1-9]?\b")] *)
Definition RST_RE : pattern :=
  Pattern (WordBoundary +++ rng "1" "5" +++ rng "1" "9" +++ opt (rng "1" "9")
           +++ WordBoundary) false.

(** [GRID_RE = re.compile(r"\b[A-R]{2}[0-9]{2}(?:[a-x]{2})?\b", re.IGNORECASE)] *)
Definition GRID_RE : pattern :=
  Pattern (WordBoundary +++ Repeat 2 2 (rng "A" "R") +++ Repeat 2 2 (rng "0" "9")
           +++ opt (Repeat 2 2 (rng "a" "x")) +++ WordBoundary) true.

(** [CQ_RE = re.compile(r"\bCQ\b", re.IGNORECASE)] *)
Definition CQ_RE : pattern :=
  Pattern (WordBoundary +++ chr "C" +++ chr "Q" +++ WordBoundary) true.

(** [DE_RE = re.compile(r"\bDE\b", re.IGNORECASE)] *)
Definition DE_RE : pattern :=
  Pattern (WordBoundary +++ chr "D" +++ chr "E" +++ WordBoundary) true.

(** [SEVENTY_THREE_RE = re.compile(r"\b73\b")] *)
Definition SEVENTY_THREE_RE : pattern :=
  Pattern (WordBoundary +++ chr "7" +++ chr "3" +++ WordBoundary) false.

(** [DB_REPORT_RE = re.compile(r"[+-]\d{2}\b")] *)
Definition DB_REPORT_RE : pattern :=
  Pattern (CharSet [(43%N, 43%N); (45%N, 45%N)] +++ Repeat 2 2 Digit +++ WordBoundary) false.

(** [RRR_RE = re.compile(r"\bR(?:RR|R73)\b")] *)
Definition RRR_RE : pattern :=
  Pattern (WordBoundary +++ chr "R"
           +++ Alt (chr "R" +++ chr "R") (chr "R" +++ chr "7" +++ chr "3")
           +++ WordBoundary) false.

(** ** [shannon_entropy] *)

(** In [shannon_entropy] the floats of the source are taken as the real
    numbers they stand for, and their operations as exact: the rounding of
    each quotient, product, logarithm and difference is left out. Of the
    entropy the properties below use its sign, which rounding keeps (shown
    on [shannon_entropy_rounded], where the rounding is written out), and
    its value on 257 distinct characters, [log2 257], which exceeds 8 by
    more than the rounding of 257 terms can move it. No upper bound is drawn
    from the exact sum: in doubles the sum of 256 equal terms can end above
    8 where the exact sum is 8. *)

(** [freq[ch] = freq.get(ch, 0) + 1] on the insertion-ordered dict. *)
Fixpoint freq_incr (ch : codepoint) (freq : list (codepoint * Z)) : list (codepoint * Z) :=
  match freq with
  | [] => [(ch, 1%Z)]
  | (k, n) :: rest =>
      if N.eqb k ch then (k, (n + 1)%Z) :: rest else (k, n) :: freq_incr ch rest
  end.

(** The first loop of [shannon_entropy]. *)
Definition char_freq (text : pystr) : list (codepoint * Z) :=
  List.fold_left (fun freq ch => freq_incr ch freq) text [].

(** One turn of the second loop. *)
Definition entropy_step (length : Z) (entropy : R) (count : Z) : R :=
  let p := IZR count / IZR length in
  if Rlt_dec 0 p then entropy - p * log2 p else entropy.

Definition shannon_entropy (text : pystr) : R :=
  match text with
  | [] => 0
  | _ :: _ =>
      let freq := char_freq text in
      let length := len text in
      List.fold_left (entropy_step length) (List.map snd freq) 0
  end.

(** The same two loops with the rounding of doubles written out: [rnd]
    takes the exact result of a quotient, a product or a difference to the
    double that the operation returns, and [flog2] is [math.log2] on
    doubles. *)
Record float_ops := FloatOps {
  rnd : R -> R;
  flog2 : R -> R
}.

Definition entropy_step_rounded (F : float_ops) (length : Z) (entropy : R) (count : Z) : R :=
  let p := rnd F (IZR count / IZR length) in
  if Rlt_dec 0 p then rnd F (entropy - rnd F (p * flog2 F p)) else entropy.

Definition shannon_entropy_rounded (F : float_ops) (text : pystr) : R :=
  match text with
  | [] => 0
  | _ :: _ =>
      let freq := char_freq text in
      let length := len text in
      List.fold_left (entropy_step_rounded F length) (List.map snd freq) 0
  end.

(** Exact arithmetic: nothing is rounded. *)
Definition exact_ops : float_ops := {| rnd := fun x => x; flog2 := log2 |}.

(** What rounding to nearest keeps: 0 and 1 are doubles, a larger exact
    result never gives a smaller double, and the logarithm of a double in
    (0, 1] is not positive. *)
Definition sign_preserving (F : float_ops) : Prop :=
  rnd F 0 = 0 /\ rnd F 1 = 1 /\
  (forall x y, x <= y -> rnd F x <= rnd F y) /\
  (forall p, 0 < p -> p <= 1 -> flog2 F p <= 0).

(** ** [extract_features] *)

Definition flag (b : bool) : R := if b then 1 else 0.

(** [sum(1 for x in xs if p(x))] *)
Fixpoint count {A} (p : A -> bool) (xs : list A) : Z :=
  match xs with
  | [] => 0%Z
  | x :: rest => if p x then (1 + count p rest)%Z else count p rest
  end.

Section Extract.
Context (U : unicode).

(** The bigram and the trigram loop: [n] is the window width and [prefix]
    is ["bi_"] or ["tri_"]. *)
Definition count_ngrams (prefix : pystr) (n : nat) (upper_text : pystr)
    (features : gmap pystr R) : gmap pystr R :=
  List.fold_left
    (fun (features : gmap pystr R) i =>
       let gram := slice i (i + n) upper_text in
       if List.forallb (fun c => (isalnum U c || N.eqb c 32)%bool) gram
       then let key := prefix ++ gram in
            <[key := default 0 (features !! key) + 1]> features
       else features)
    (seq 0 (List.length upper_text - (n - 1)))
    features.

Definition is_vowel (c : codepoint) : bool := List.existsb (N.eqb c) (lit "AEIOU").

Definition extract_features (text : pystr) : gmap pystr R :=
  let features : gmap pystr R := ∅ in
  let length := len text in
  if (length =? 0)%Z then
    let features := <[lit "len" := 0]> features in
    let features := <[lit "alpha_ratio" := 0]> features in
    let features := <[lit "digit_ratio" := 0]> features in
    let features := <[lit "space_ratio" := 0]> features in
    let features := <[lit "upper_ratio" := 0]> features in
    let features := <[lit "special_ratio" := 0]> features in
    let features := <[lit "entropy" := 0]> features in
    features
  else
    let alpha_count := count (isalpha U) text in
    let digit_count := count (isdigit U) text in
    let space_count := count (fun c => N.eqb c 32) text in
    let upper_count := count (isupper U) text in
    let special_count := (length - alpha_count - digit_count - space_count)%Z in
    let features := <[lit "len" := Rmin (IZR length / 200) 1]> features in
    let features := <[lit "alpha_ratio" := IZR alpha_count / IZR length]> features in
    let features := <[lit "digit_ratio" := IZR digit_count / IZR length]> features in
    let features := <[lit "space_ratio" := IZR space_count / IZR length]> features in
    let features :=
      <[lit "upper_ratio" :=
          if (alpha_count >? 0)%Z then IZR upper_count / IZR length else 0]> features in
    let features := <[lit "special_ratio" := IZR special_count / IZR length]> features in
    let features := <[lit "entropy" := shannon_entropy text / 8]> features in
    let upper_text := str_upper U text in
    let features := count_ngrams (lit "bi_") 2 upper_text features in
    let features := count_ngrams (lit "tri_") 3 upper_text features in
    let words := split U text in
    let features :=
      match words with
      | _ :: _ =>
          let word_lens := List.map len words in
          let features :=
            <[lit "max_word_len" := Rmin (IZR (max_list word_lens) / 20) 1]> features in
          let features :=
            <[lit "avg_word_len" :=
                Rmin (IZR (sum_list word_lens) / IZR (Z.of_nat (List.length word_lens)) / 10) 1]>
              features in
          <[lit "word_count" := Rmin (IZR (Z.of_nat (List.length words)) / 20) 1]> features
      | [] =>
          let features := <[lit "max_word_len" := Rmin (IZR length / 20) 1]> features in
          let features := <[lit "avg_word_len" := Rmin (IZR length / 10) 1]> features in
          <[lit "word_count" := 0]> features
      end in
    let vowels := count is_vowel upper_text in
    let features :=
      <[lit "vowel_ratio" :=
          if (alpha_count >? 0)%Z then IZR vowels / IZR alpha_count else 0]> features in
    let features :=
      if (length >? 1)%Z then
        let repeated :=
          count (fun i => N.eqb (nth i text 0%N) (nth (i + 1) text 0%N))
                (seq 0 (Z.to_nat (length - 1))) in
        <[lit "repeated_pair_ratio" := IZR repeated / IZR (length - 1)]> features
      else
        <[lit "repeated_pair_ratio" := 0]> features in
    let features := <[lit "has_callsign" := flag (search U CALLSIGN_RE upper_text)]> features in
    let features := <[lit "has_rst" := flag (search U RST_RE text)]> features in
    let features := <[lit "has_grid" := flag (search U GRID_RE text)]> features in
    let features := <[lit "has_cq" := flag (search U CQ_RE text)]> features in
    let features := <[lit "has_de" := flag (search U DE_RE text)]> features in
    let features := <[lit "has_73" := flag (search U SEVENTY_THREE_RE text)]> features in
    let features := <[lit "has_db_report" := flag (search U DB_REPORT_RE text)]> features in
    let features := <[lit "has_rrr" := flag (search U RRR_RE text)]> features in
    features.
End Extract.

(** ** [train] and the entry point *)

(** What the world outside the repository hands to [train] once
    [model.predict] has returned: the rows of the test table, each as the
    label read for it and the label predicted for it; whether a library call
    made between the gate and the return of the model compiler (the
    pipeline, the conversion, saving, the file system, starting [xcrun])
    raises; the return code of [xcrun coremlcompiler]; and whether a call
    made for the golden pairs raises. [predict] returns one label for each
    row and raises on a table without rows, so there is a first row. *)
Record run_env := RunEnv {
  first_row : Z * Z;
  more_rows : list (Z * Z);
  export_raises : bool;
  compile_returncode : Z;
  golden_raises : bool
}.

Definition rows (env : run_env) : list (Z * Z) := first_row env :: more_rows env.

(** [y_test = test_df["label"].values] *)
Definition y_test (env : run_env) : list Z := List.map fst (rows env).

(** [y_pred = model.predict(X_test)] *)
Definition y_pred (env : run_env) : list Z := List.map snd (rows env).

(** How a call of [train] ends. *)
Inductive outcome :=
| Returned (accuracy : Q)
| SysExit (status : Z)
| Raised.

(** What [train] prints from the evaluation on, line by line; the two lines
    that show the accuracy carry it. *)
Inductive line :=
| Test_accuracy (accuracy : Q)
| Classification_report_header
| Classification_report
| Warning_below_target (accuracy : Q)
| Exporting_to_CoreML
| Saved_model
| Compiling_CoreML_model
| Coremlcompiler_failed
| Compiled_model
| Generating_golden_pairs
| Saved_golden_pairs
| Golden_pairs_accuracy.

(** [sklearn.metrics.accuracy_score(y_true, y_pred)]: the fraction of
    positions at which the two agree. *)
Definition accuracy_score (y_true y_pred : list Z) : Q :=
  (count (fun yy => Z.eqb (fst yy) (snd yy)) (combine y_true y_pred)
     # Pos.of_nat (List.length y_true))%Q.

(** [sklearn.utils.multiclass.unique_labels(y_true, y_pred)]: the labels
    met in either array. *)
Definition unique_labels (y_true y_pred : list Z) : list Z :=
  nodup Z.eq_dec (y_true ++ y_pred).

(** [classification_report(y_true, y_pred, target_names=[...])], called
    without [labels]: a [ValueError] when the number of labels met is not the
    number of target names. *)
Definition classification_report_raises (y_true y_pred : list Z)
    (target_names : nat) : bool :=
  negb (List.length (unique_labels y_true y_pred) =? target_names)%nat.

(** The threshold literal [0.95]. The accuracy of the source is the double
    nearest to the fraction of [accuracy_score], and [0.95] the double
    nearest to 95/100; on a table of fewer than 10^14 rows the two
    comparisons of the source, [accuracy < 0.95] and [acc >= 0.95], give on
    these doubles what they give on the fractions. *)
Definition threshold : Q := (95 # 100)%Q.

(** [train]: the lines printed from the evaluation on, and how the call
    ends. The header of the report is printed before the report is
    computed. *)
Definition train (env : run_env) : list line * outcome :=
  let accuracy := accuracy_score (y_test env) (y_pred env) in
  let out := [Test_accuracy accuracy; Classification_report_header] in
  if classification_report_raises (y_test env) (y_pred env) 2 then (out, Raised) else
  let out := out ++ [Classification_report] in
  let out :=
    if Qlt_bool accuracy threshold
    then out ++ [Warning_below_target accuracy]
    else out in
  let out := out ++ [Exporting_to_CoreML] in
  if export_raises env then (out, Raised) else
  let out := out ++ [Saved_model; Compiling_CoreML_model] in
  if negb (compile_returncode env =? 0)%Z
  then (out ++ [Coremlcompiler_failed], SysExit 1)
  else
    let out := out ++ [Compiled_model; Generating_golden_pairs] in
    if golden_raises env then (out, Raised) else
    (out ++ [Saved_golden_pairs; Golden_pairs_accuracy], Returned accuracy).

(** The entry point: [acc = train(); sys.exit(0 if acc >= 0.95 else 1)].
    The result is the exit status of the process; an exception that
    nothing catches ends the interpreter with status 1. *)
Definition main (env : run_env) : Z :=
  match snd (train env) with
  | Returned acc => if Qle_bool threshold acc then 0%Z else 1%Z
  | SysExit status => status
  | Raised => 1%Z
  end.

(** The steps that follow the computation of the accuracy all succeed: the
    report is computed, no later library call raises and the model compiler
    returns 0. *)
Definition steps_succeed (env : run_env) : Prop :=
  classification_report_raises (y_test env) (y_pred env) 2 = false /\
  export_raises env = false /\ compile_returncode env = 0%Z /\ golden_raises env = false.

(** A run in which the two predictions are right and every step
    succeeds. *)
Definition compile_success : run_env :=
  {| first_row := (1%Z, 1%Z); more_rows := [(0%Z, 0%Z)]; export_raises := false;
     compile_returncode := 0; golden_raises := false |}.

(** A run in which the two predictions are right and the model compiler
    fails. *)
Definition compile_failure : run_env :=
  {| first_row := (1%Z, 1%Z); more_rows := [(0%Z, 0%Z)]; export_raises := false;
     compile_returncode := 1; golden_raises := false |}.

(** A run in which two predictions of three are right and every step
    succeeds. *)
Definition below_target : run_env :=
  {| first_row := (1%Z, 1%Z); more_rows := [(0%Z, 0%Z); (1%Z, 0%Z)];
     export_raises := false; compile_returncode := 0; golden_raises := false |}.

(** ** The language of the signal-report pattern, in the words of the
    specification *)

(** A digit sequence whose first digit is in 1-5, whose second digit is in
    1-9 and whose optional third digit satisfies [third]. *)
Definition rst_digits (third : codepoint -> bool) (w : pystr) : Prop :=
  match w with
  | [d1; d2] => in_range 49 53 d1 = true /\ in_range 49 57 d2 = true
  | [d1; d2; d3] =>
      in_range 49 53 d1 = true /\ in_range 49 57 d2 = true /\ third d3 = true
  | _ => False
  end.

(** [w] stands in [pre ++ w ++ post] as a whole word: no word character
    touches it on either side. *)
Definition whole_word (U : unicode) (pre post : pystr) : Prop :=
  match List.rev pre with c :: _ => is_word U c = false | [] => True end /\
  match post with c :: _ => is_word U c = false | [] => True end.

Definition contains_rst (U : unicode) (third : codepoint -> bool) (text : pystr) : Prop :=
  exists pre w post,
    text = pre ++ w ++ post /\ rst_digits third w /\ whole_word U pre post.

(** The third digit as the pattern has it, [[1-9]]. *)
Definition third_1_9 (c : codepoint) : bool := in_range 49 57 c.

(** The third digit as the specification has it: the digits of the class
    [[1|7-9]]. *)
Definition third_1_or_7_9 (c : codepoint) : bool :=
  (N.eqb c 49 || in_range 55 57 c)%bool.

(** ** What the properties assume of the character tables *)

(** No character is both alphabetic and a digit, and the space is
    neither. *)
Definition classes_disjoint (U : unicode) : Prop :=
  (forall c, isalpha U c = true -> isdigit U c = false) /\
  isalpha U 32%N = false /\ isdigit U 32%N = false.

(** Upper-casing a character yields at most one of [A E I O U], and none
    for a character that is not alphabetic. *)
Definition upper_vowels_alpha (U : unicode) : Prop :=
  forall c, (count is_vowel (upper U c) <= (if isalpha U c then 1 else 0))%Z.

(** The digits [0]-[9] are word characters. *)
Definition digits_are_word (U : unicode) : Prop :=
  forall c, in_range 48 57 c = true -> isalnum U c = true.

(** ** Notions used by the statements and their proofs *)

(** An n-gram key: a key built by one of the two window loops. *)
Definition ngram_key (k : pystr) : Prop :=
  (exists w, k = lit "bi_" ++ w) \/ (exists w, k = lit "tri_" ++ w).

Definition counts_total (counts : list Z) : Z := List.fold_right Z.add 0%Z counts.

Definition freq_from (freq : list (codepoint * Z)) (text : pystr) : list (codepoint * Z) :=
  List.fold_left (fun freq ch => freq_incr ch freq) text freq.

Definition Rsum (xs : list R) : R := List.fold_right Rplus 0 xs.

(** The contribution of one entry of the table. *)
Definition entropy_term (length count : Z) : R :=
  let p := IZR count / IZR length in
  if Rlt_dec 0 p then - (p * log2 p) else 0.

(** The code points 0 to 256. *)
Definition text257 : pystr := List.map N.of_nat (seq 0 257).

Definition counter_value (v : R) : Prop := exists n : Z, (0 <= n)%Z /\ v = IZR n.

Definition counters_ok (features : gmap pystr R) : Prop :=
  forall k v, ngram_key k -> features !! k = Some v -> counter_value v.

End TrainModel.

(* ===================================================================== *)
(** * train_model.py, the feature dicts as objects *)
(* ===================================================================== *)

(** [extract_features] builds its result in a dict that it creates, writes
    key by key and reads back in the two window loops. Here the dicts are
    objects of a store, as the interpreter has them: what a call returns is
    the identity of a dict, and what the dict holds is read in the store.
    The only names that the function reads outside its own frame are the
    eight compiled patterns of lines 22-29, bound once when the module is
    loaded and never assigned again: they are the constants of [TrainModel],
    and a compiled pattern keeps nothing from one search to the next. *)
Module TrainRun.
Import Py Re TrainModel.

Local Open Scope R_scope.

(** ** The store *)

(** The feature dicts that exist at a point of a run, each under its
    identity. *)
Abbreviation store := (gmap nat (gmap pystr R)).

(** A piece of code: from the store before it to its value and the store
    after it. *)
Definition py (A : Type) : Type := store -> A * store.

Definition ret {A} (x : A) : py A := fun h => (x, h).

Definition bind {A B} (c : py A) (k : A -> py B) : py B :=
  fun h => let (x, h') := c h in k x h'.

Declare Scope py_scope.
Delimit Scope py_scope with py.
Notation "x <- c ;; k" := (bind c (fun x => k))
  (at level 100, c at next level, right associativity) : py_scope.
Notation "c ;;; k" := (bind c (fun _ => k))
  (at level 100, right associativity) : py_scope.
Local Open Scope py_scope.

(** What the dict [d] holds. *)
Definition contents (d : nat) (h : store) : gmap pystr R := default ∅ (h !! d).

(** [{}]: a new, empty dict, under an identity that no dict of the store
    has. *)
Definition new_dict : py nat :=
  fun h => let d := fresh (dom h) in (d, <[d := ∅]> h).

(** [d[key] = value] *)
Definition setitem (d : nat) (key : pystr) (value : R) : py unit :=
  fun h => (tt, <[d := <[key := value]> (contents d h)]> h).

(** [d.get(key, dflt)] *)
Definition get (d : nat) (key : pystr) (dflt : R) : py R :=
  fun h => (default dflt (contents d h !! key), h).

(** [for x in xs: body(x)] *)
Fixpoint for_ {A} (xs : list A) (body : A -> py unit) : py unit :=
  match xs with
  | [] => ret tt
  | x :: rest => body x ;;; for_ rest body
  end.

(** ** [extract_features], statement by statement *)

Section Extract.
Context (U : unicode).

(** The bigram and the trigram loop on the dict [features]: [n] is the
    window width and [prefix] is ["bi_"] or ["tri_"]. *)
Definition count_ngrams (features : nat) (prefix : pystr) (n : nat)
    (upper_text : pystr) : py unit :=
  for_ (seq 0 (List.length upper_text - (n - 1)))
    (fun i =>
       let gram := slice i (i + n) upper_text in
       if List.forallb (fun c => (isalnum U c || N.eqb c 32)%bool) gram
       then let key := prefix ++ gram in
            v <- get features key 0 ;;
            setitem features key (v + 1)
       else ret tt).

(** The table of [shannon_entropy] is local to its call and is dropped when
    it returns: the call is taken by its value. *)
Definition extract_features (text : pystr) : py nat :=
  features <- new_dict ;;
  let length := len text in
  if (length =? 0)%Z then
    setitem features (lit "len") 0 ;;;
    setitem features (lit "alpha_ratio") 0 ;;;
    setitem features (lit "digit_ratio") 0 ;;;
    setitem features (lit "space_ratio") 0 ;;;
    setitem features (lit "upper_ratio") 0 ;;;
    setitem features (lit "special_ratio") 0 ;;;
    setitem features (lit "entropy") 0 ;;;
    ret features
  else
    let alpha_count := count (isalpha U) text in
    let digit_count := count (isdigit U) text in
    let space_count := count (fun c => N.eqb c 32) text in
    let upper_count := count (isupper U) text in
    let special_count := (length - alpha_count - digit_count - space_count)%Z in
    setitem features (lit "len") (Rmin (IZR length / 200) 1) ;;;
    setitem features (lit "alpha_ratio") (IZR alpha_count / IZR length) ;;;
    setitem features (lit "digit_ratio") (IZR digit_count / IZR length) ;;;
    setitem features (lit "space_ratio") (IZR space_count / IZR length) ;;;
    setitem features (lit "upper_ratio")
      (if (alpha_count >? 0)%Z then IZR upper_count / IZR length else 0) ;;;
    setitem features (lit "special_ratio") (IZR special_count / IZR length) ;;;
    setitem features (lit "entropy") (shannon_entropy text / 8) ;;;
    let upper_text := str_upper U text in
    count_ngrams features (lit "bi_") 2 upper_text ;;;
    count_ngrams features (lit "tri_") 3 upper_text ;;;
    let words := split U text in
    (match words with
     | _ :: _ =>
         let word_lens := List.map len words in
         setitem features (lit "max_word_len")
           (Rmin (IZR (max_list word_lens) / 20) 1) ;;;
         setitem features (lit "avg_word_len")
           (Rmin (IZR (sum_list word_lens) / IZR (Z.of_nat (List.length word_lens)) / 10)
                 1) ;;;
         setitem features (lit "word_count")
           (Rmin (IZR (Z.of_nat (List.length words)) / 20) 1)
     | [] =>
         setitem features (lit "max_word_len") (Rmin (IZR length / 20) 1) ;;;
         setitem features (lit "avg_word_len") (Rmin (IZR length / 10) 1) ;;;
         setitem features (lit "word_count") 0
     end) ;;;
    let vowels := count is_vowel upper_text in
    setitem features (lit "vowel_ratio")
      (if (alpha_count >? 0)%Z then IZR vowels / IZR alpha_count else 0) ;;;
    (if (length >? 1)%Z then
       let repeated :=
         count (fun i => N.eqb (nth i text 0%N) (nth (i + 1) text 0%N))
               (seq 0 (Z.to_nat (length - 1))) in
       setitem features (lit "repeated_pair_ratio") (IZR repeated / IZR (length - 1))
     else
       setitem features (lit "repeated_pair_ratio") 0) ;;;
    setitem features (lit "has_callsign") (flag (search U CALLSIGN_RE upper_text)) ;;;
    setitem features (lit "has_rst") (flag (search U RST_RE text)) ;;;
    setitem features (lit "has_grid") (flag (search U GRID_RE text)) ;;;
    setitem features (lit "has_cq") (flag (search U CQ_RE text)) ;;;
    setitem features (lit "has_de") (flag (search U DE_RE text)) ;;;
    setitem features (lit "has_73") (flag (search U SEVENTY_THREE_RE text)) ;;;
    setitem features (lit "has_db_report") (flag (search U DB_REPORT_RE text)) ;;;
    setitem features (lit "has_rrr") (flag (search U RRR_RE text)) ;;;
    ret features.

(** [[extract_features(str(t)) for t in df["text"]]]: the dicts of a table
    of samples, row by row. Only the text of a row is handed on. *)
Fixpoint extract_rows (texts : list pystr) : py (list nat) :=
  match texts with
  | [] => ret []
  | t :: rest =>
      d <- extract_features t ;;
      ds <- extract_rows rest ;;
      ret (d :: ds)
  end.

Definition extract_table (table : list (pystr * Z)) : py (list nat) :=
  extract_rows (List.map fst table).
End Extract.

(** A store in which a dict of an earlier call already holds counters. *)
Definition used_store : store :=
  {[ 0%nat := {[ lit "bi_CQ" := 7; lit "len" := 1 ]} ]}.

End TrainRun.

(* ===================================================================== *)
(** * generate_data.py *)
(* ===================================================================== *)

Module GenerateData.
Import Py.

Definition SEED : Z := 42.
Definition TOTAL_LEGIT : Z := 50000.
Definition TOTAL_GARBAGE : Z := 50000.

(** ** The [random] module and the float formatting of the runtime *)

(** The [random] module over a state [rng] of the generator. A call that
    raises returns [None]. [random] and [uniform] return a float, which, being
    finite, is a rational. *)
Record random_module (rng : Type) := RandomModule {
  seed : Z -> rng;
  random : rng -> Q * rng;
  uniform : Q -> Q -> rng -> Q * rng;
  randint : Z -> Z -> rng -> option (Z * rng);
  choice : forall A : Type, list A -> rng -> option (A * rng);
  choices : forall A : Type, list A -> Z -> rng -> option (list A * rng);
  sample : forall A : Type, list A -> Z -> rng -> option (list A * rng);
  shuffle : forall A : Type, list A -> rng -> list A * rng
}.

Arguments seed {rng}.
Arguments random {rng}.
Arguments uniform {rng}.
Arguments randint {rng}.
Arguments choice {rng} _ {A}.
Arguments choices {rng} _ {A}.
Arguments sample {rng} _ {A}.
Arguments shuffle {rng} _ {A}.

(** What the generators rely on: [randint(a, b)] with [a <= b] returns an
    integer of the range, [choice] of a non-empty sequence returns one of its
    elements, [choices] of a non-empty population returns [k] of its elements,
    [sample] returns [k] elements of the population when it has that many,
    [uniform(a, b)] stays between its bounds and [shuffle] permutes. *)
Record random_ok {rng : Type} (Rnd : random_module rng) : Prop := RandomOk {
  randint_ok : forall a b g, (a <= b)%Z ->
    exists n g', randint Rnd a b g = Some (n, g') /\ (a <= n <= b)%Z;
  choice_ok : forall (A : Type) (xs : list A) g, xs <> [] ->
    exists x g', choice Rnd xs g = Some (x, g') /\ List.In x xs;
  choices_ok : forall (A : Type) (xs : list A) k g, xs <> [] -> (0 <= k)%Z ->
    exists ys g', choices Rnd xs k g = Some (ys, g') /\
      Z.of_nat (List.length ys) = k /\ List.Forall (fun y => List.In y xs) ys;
  sample_ok : forall (A : Type) (xs : list A) k g,
    (0 <= k <= Z.of_nat (List.length xs))%Z ->
    exists ys g', sample Rnd xs k g = Some (ys, g') /\
      Z.of_nat (List.length ys) = k /\ List.Forall (fun y => List.In y xs) ys;
  uniform_ok : forall a b g, (a <= b)%Q ->
    (a <= fst (uniform Rnd a b g) <= b)%Q;
  shuffle_ok : forall (A : Type) (xs : list A) g,
    Permutation xs (fst (shuffle Rnd xs g))
}.

(** Float formatting: [round(x, 4)], [str(x)] and [format(x, ".4f")]. *)
Record float_format := FloatFormat {
  round4 : Q -> Q;
  float_str : Q -> pystr;
  float_fixed4 : Q -> pystr
}.

(** ** Computations over the random stream *)

Definition gen (rng A : Type) : Type := rng -> option (A * rng).

Definition ret {rng A} (x : A) : gen rng A := fun g => Some (x, g).

Definition bind {rng A B} (c : gen rng A) (k : A -> gen rng B) : gen rng B :=
  fun g => match c g with
           | Some (x, g') => k x g'
           | None => None
           end.

(** A call that cannot raise. *)
Definition total {rng A} (f : rng -> A * rng) : gen rng A := fun g => Some (f g).

(** A value that may be an exception. *)
Definition raise_if_none {rng A} (o : option A) : gen rng A :=
  fun g => match o with Some x => Some (x, g) | None => None end.

Declare Scope gen_scope.
Delimit Scope gen_scope with gen.
Notation "x <- c ;; k" := (bind c (fun x => k))
  (at level 100, c at next level, right associativity) : gen_scope.
Local Open Scope gen_scope.

(** [for _ in range(n): state = body(state)] *)
Fixpoint for_range {rng S} (n : nat) (body : S -> gen rng S) (state : S) : gen rng S :=
  match n with
  | O => ret state
  | S n' => state' <- body state ;; for_range n' body state'
  end.

(** [for x in xs: state = body(x, state)] *)
Fixpoint for_each {rng A S} (xs : list A) (body : A -> S -> gen rng S) (state : S)
    : gen rng S :=
  match xs with
  | [] => ret state
  | x :: rest => state' <- body x state ;; for_each rest body state'
  end.

(** ** Strings and lists of the generators *)

(** [sep.join(parts)] *)
Fixpoint join (sep : pystr) (parts : list pystr) : pystr :=
  match parts with
  | [] => []
  | [p] => p
  | p :: rest => p ++ sep ++ join sep rest
  end.

(** [str(n)] for an int. *)
Definition str_of_int (n : Z) : pystr := lit (NilZero.string_of_int (Z.to_int n)).

(** [format(n, "0wd")] for a non-negative int: zero-padded to width [w]. *)
Definition zero_pad (w : nat) (n : Z) : pystr :=
  let digits := str_of_int n in
  List.repeat 48%N (w - List.length digits) ++ digits.

(** [s * n] *)
Definition str_mul (s : pystr) (n : Z) : pystr := List.concat (List.repeat s (Z.to_nat n)).

(** [xs[i] = x] on a list: [None] is an [IndexError]. *)
Definition list_assign {A} (xs : list A) (i : Z) (x : A) : option (list A) :=
  let n := Z.of_nat (List.length xs) in
  if (0 <=? i)%Z && (i <? n)%Z then Some (<[Z.to_nat i := x]> xs)
  else if (- n <=? i)%Z && (i <? 0)%Z then Some (<[Z.to_nat (n + i) := x]> xs)
  else None.

(** [range(n)] as a list. *)
Definition range (n : Z) : list Z := List.map Z.of_nat (seq 0 (Z.to_nat n)).

(** [int(x)] of a float: truncation towards zero. *)
Definition int_of_float (x : Q) : Z := if Qle_bool 0 x then Qfloor x else Qceiling x.

(** The case methods of [str]. Every string they are applied to is made of
    ASCII characters, on which they act as follows. *)
Definition ascii_lower (c : codepoint) : codepoint :=
  if in_range 65 90 c then (c + 32)%N else c.

Definition ascii_upper (c : codepoint) : codepoint :=
  if in_range 97 122 c then (c - 32)%N else c.

Definition is_ascii_letter (c : codepoint) : bool :=
  (in_range 65 90 c || in_range 97 122 c)%bool.

(** [s.lower()] *)
Definition lower (s : pystr) : pystr := List.map ascii_lower s.

(** [s.upper()] *)
Definition upper (s : pystr) : pystr := List.map ascii_upper s.

(** [s.capitalize()] *)
Definition capitalize (s : pystr) : pystr :=
  match s with
  | [] => []
  | c :: rest => ascii_upper c :: lower rest
  end.

(** [s.title()]: a letter that follows a letter is lower-cased, any other
    letter is upper-cased. *)
Fixpoint title_from (after_letter : bool) (s : pystr) : pystr :=
  match s with
  | [] => []
  | c :: rest =>
      (if after_letter then ascii_lower c else ascii_upper c)
      :: title_from (is_ascii_letter c) rest
  end.

Definition title (s : pystr) : pystr := title_from false s.

Fixpoint lstrip (s : pystr) : pystr :=
  match s with
  | [] => []
  | c :: rest => if isspace ascii_db c then lstrip rest else s
  end.

(** [s.strip()] *)
Definition strip (s : pystr) : pystr := List.rev (lstrip (List.rev (lstrip s))).

(** ** Ham radio data building blocks *)

Definition LETTERS : pystr := lit "ABCDEFGHIJKLMNOPQRSTUVWXYZ".
Definition DIGITS : pystr := lit "0123456789".

Definition US_PREFIXES : list pystr := List.map lit
  ["W"; "K"; "N"; "WA"; "WB"; "WD"; "KA"; "KB"; "KC"; "KD"; "KE"; "KF";
   "KG"; "KI"; "KJ"; "KK"; "KN"; "NX"; "AA"; "AB"; "AC"; "AD"; "AE"; "AF";
   "AG"; "AI"; "AJ"; "AK"; "AL"]%string.

Definition DX_PREFIXES : list pystr := List.map lit
  ["VE"; "VA"; "VK"; "ZL"; "G"; "GM"; "GW"; "GI"; "F"; "DL"; "DJ"; "DK";
   "PA"; "ON"; "OZ"; "SM"; "OH"; "LA"; "EA"; "I"; "CT"; "YU"; "HA"; "OK";
   "SP"; "UR"; "UA"; "JA"; "JH"; "JR"; "HL"; "BV"; "VU"; "ZS"; "PY"; "LU";
   "CE"; "XE"; "TI"; "HP"; "HK"; "YV"; "HC"; "OA"; "CP"]%string.

Definition CITIES : list pystr := List.map lit
  ["NEW YORK"; "LOS ANGELES"; "CHICAGO"; "HOUSTON"; "DALLAS"; "DENVER";
   "SEATTLE"; "PORTLAND"; "MIAMI"; "ATLANTA"; "BOSTON"; "TORONTO"; "LONDON";
   "BERLIN"; "PARIS"; "TOKYO"; "SYDNEY"; "AUCKLAND"; "SAO PAULO"; "MOSCOW";
   "STOCKHOLM"; "OSLO"; "MADRID"; "ROME"; "VIENNA"; "PRAGUE"; "WARSAW";
   "BUDAPEST"; "HELSINKI"; "COPENHAGEN"; "AMSTERDAM"; "BRUSSELS"; "LISBON";
   "CAPE TOWN"; "MUMBAI"; "BEIJING"; "SEOUL"; "TAIPEI"; "MANILA"; "JAKARTA";
   "SPRINGFIELD"; "FAIRVIEW"; "CLINTON"; "FRANKLIN"; "GREENVILLE"; "BRISTOL";
   "MADISON"; "CHESTER"; "MARION"; "GEORGETOWN"]%string.

Definition NAMES : list pystr := List.map lit
  ["JOHN"; "BOB"; "MIKE"; "JIM"; "TOM"; "BILL"; "DAVE"; "STEVE"; "RICK";
   "DAN"; "FRANK"; "GEORGE"; "PAUL"; "MARK"; "JEFF"; "SCOTT"; "GARY"; "RON";
   "LARRY"; "ED"; "JOE"; "PETE"; "JACK"; "RAY"; "CARL"; "AL"; "FRED"; "ART";
   "TONY"; "LEE"; "WAYNE"; "BRUCE"; "DON"; "HAROLD"; "ROGER"; "RALPH";
   "HOWARD"; "KEN"; "DENNIS"; "JERRY"; "TERRY"; "DOUG"; "HENRY"; "WALTER";
   "SAM"; "ANDY"; "CHRIS"; "BRIAN"; "KEVIN"; "ERIC"]%string.

Definition NAMES_MIXED : list pystr := List.map capitalize NAMES.

Definition RIGS : list pystr := List.map lit
  ["IC-7300"; "IC-7610"; "IC-9700"; "IC-7851"; "IC-705";
   "FT-991A"; "FTDX10"; "FTDX101D"; "FT-710"; "FT-891";
   "TS-890S"; "TS-590SG"; "TS-990S"; "TS-480";
   "K3S"; "K4"; "KX3"; "KX2"; "K2";
   "FLEX-6600"; "FLEX-6400"; "FLEX-6700";
   "SDR"; "QRP RIG"; "HOMEBREW"]%string.

Definition ANTENNAS : list pystr := List.map lit
  ["DIPOLE"; "3 EL YAGI"; "4 EL YAGI"; "5 EL YAGI"; "VERTICAL";
   "G5RV"; "END FED"; "EFHW"; "LOOP"; "QUAD"; "HEX BEAM";
   "COBWEB"; "WIRE ANTENNA"; "LONG WIRE"; "INVERTED V";
   "WINDOM"; "OCF DIPOLE"; "BEAM"; "LOG PERIODIC"; "DISCONE";
   "DELTA LOOP"; "MAGNETIC LOOP"; "BUDDIPOLE"; "SCREWDRIVER"]%string.

Definition BANDS : list pystr := List.map lit
  ["160M"; "80M"; "60M"; "40M"; "30M"; "20M"; "17M"; "15M"; "12M"; "10M";
   "6M"; "2M"; "70CM"]%string.

Definition WX_CONDITIONS : list pystr := List.map lit
  ["SUNNY"; "CLOUDY"; "RAINY"; "SNOWY"; "WINDY"; "CLEAR"; "OVERCAST";
   "FOGGY"; "WARM"; "COLD"; "HOT"; "MILD"]%string.

Definition GRID_LETTERS_1 : pystr := lit "ABCDEFGHIJKLMNOR".
Definition GRID_LETTERS_2 : pystr := lit "ABCDEFGHIJKLMNOPQRSTUVWX".

(** [string.punctuation]; the double quote is code point 34. *)
Definition punctuation : pystr :=
  lit "!" ++ [34%N] ++ lit "#$%&'()*+,-./:;<=>?@[\]^_`{|}~".

(** [string.printable[:62]]: the digits and the letters. *)
Definition printable_62 : pystr :=
  DIGITS ++ lit "abcdefghijklmnopqrstuvwxyz" ++ LETTERS.

(** [string.printable[:95]]: digits, letters, punctuation and the space. *)
Definition printable_95 : pystr := printable_62 ++ punctuation ++ lit " ".

Section Generators.
Context {rng : Type} (Rnd : random_module rng) (Fmt : float_format).

(** [random.random()], [random.uniform(a, b)] *)
Definition random_ : gen rng Q := total (random Rnd).
Definition uniform_ (a b : Q) : gen rng Q := total (uniform Rnd a b).

(** [random.choice(s)] on a string: a string of one character. *)
Definition choice_char (s : pystr) : gen rng pystr :=
  c <- choice Rnd s ;; ret [c].

(** [if random.random() < p: parts.append(...)] *)
Definition append_if (p : Q) (parts : list pystr) (part : gen rng pystr)
    : gen rng (list pystr) :=
  r <- random_ ;;
  if Qlt_bool r p then (x <- part ;; ret (parts ++ [x])) else ret parts.

Definition random_callsign : gen rng pystr :=
  r <- random_ ;;
  if Qlt_bool r (6 # 10) then
    prefix <- choice Rnd US_PREFIXES ;;
    digit <- choice_char (skipn 1 DIGITS) ;;
    suffix_len <- randint Rnd 1 3 ;;
    suffix <- choices Rnd LETTERS suffix_len ;;
    ret (prefix ++ digit ++ suffix)
  else
    prefix <- choice Rnd DX_PREFIXES ;;
    digit <- choice_char DIGITS ;;
    suffix_len <- randint Rnd 1 3 ;;
    suffix <- choices Rnd LETTERS suffix_len ;;
    ret (prefix ++ digit ++ suffix).

Definition random_grid : gen rng pystr :=
  g1 <- choice_char GRID_LETTERS_1 ;;
  g2 <- choice_char GRID_LETTERS_1 ;;
  g3 <- choice_char DIGITS ;;
  g4 <- choice_char DIGITS ;;
  r <- random_ ;;
  if Qlt_bool r (5 # 10) then
    g5 <- choice_char GRID_LETTERS_2 ;;
    g6 <- choice_char GRID_LETTERS_2 ;;
    ret (g1 ++ g2 ++ g3 ++ g4 ++ lower g5 ++ lower g6)
  else ret (g1 ++ g2 ++ g3 ++ g4).

Definition random_rst : gen rng pystr :=
  r <- choice Rnd (List.map lit ["1"; "2"; "3"; "4"; "5"]%string) ;;
  s <- choice Rnd (List.map lit ["1"; "2"; "3"; "4"; "5"; "6"; "7"; "8"; "9"]%string) ;;
  t <- choice Rnd (List.map lit ["9"; "8"; "7"]%string) ;;
  x <- random_ ;;
  if Qlt_bool x (5 # 10) then ret (r ++ s ++ t) else ret (r ++ s).

(** [[f"-{d:02d}" for d in range(1, 25)] + [f"+{d:02d}" for d in range(0, 15)]] *)
Definition db_reports : list pystr :=
  List.map (fun d => lit "-" ++ zero_pad 2 (Z.of_nat d)) (seq 1 24)
  ++ List.map (fun d => lit "+" ++ zero_pad 2 (Z.of_nat d)) (seq 0 15).

Definition random_db : gen rng pystr := choice Rnd db_reports.

(** *** RTTY generators (uppercase) *)

Definition gen_rtty_cq : gen rng pystr :=
  call <- random_callsign ;;
  repeats <- randint Rnd 2 4 ;;
  let cq := join (lit " ") (List.repeat (lit "CQ") (Z.to_nat repeats)) in
  ending <- choice Rnd (List.map lit ["K"; "KN"; "PSE K"; ""]%string) ;;
  ret (strip (cq ++ lit " DE " ++ call ++ lit " " ++ call ++ lit " " ++ ending)).

Definition gen_rtty_qso_exchange : gen rng pystr :=
  my_call <- random_callsign ;;
  their_call <- random_callsign ;;
  rst <- random_rst ;;
  name <- choice Rnd NAMES ;;
  city <- choice Rnd CITIES ;;
  let parts := [] in
  let parts := parts ++ [their_call ++ lit " DE " ++ my_call] in
  let parts := parts ++ [lit "UR RST " ++ rst ++ lit " " ++ rst] in
  parts <- append_if (7 # 10) parts (ret (lit "NAME IS " ++ name)) ;;
  parts <- append_if (6 # 10) parts (ret (lit "QTH IS " ++ city)) ;;
  parts <- append_if (3 # 10) parts (rig <- choice Rnd RIGS ;; ret (lit "RIG IS " ++ rig)) ;;
  last <- choice Rnd (List.map lit ["BTU"; "KN"; "K"; "BK"]%string) ;;
  ret (join (lit " ") (parts ++ [last])).

Definition gen_rtty_contest : gen rng pystr :=
  my_call <- random_callsign ;;
  their_call <- random_callsign ;;
  rst <- random_rst ;;
  serial <- randint Rnd 1 9999 ;;
  zone <- randint Rnd 1 40 ;;
  let templates :=
    [ their_call ++ lit " DE " ++ my_call ++ lit " 5NN " ++ zero_pad 4 serial
        ++ lit " " ++ zero_pad 4 serial;
      their_call ++ lit " " ++ my_call ++ lit " " ++ rst ++ lit " " ++ zero_pad 2 zone;
      lit "TU " ++ their_call ++ lit " DE " ++ my_call ++ lit " QRZ?";
      their_call ++ lit " " ++ rst ++ lit " " ++ zero_pad 4 serial ++ lit " K" ] in
  choice Rnd templates.

Definition gen_rtty_wx_report : gen rng pystr :=
  call <- random_callsign ;;
  temp <- randint Rnd (-20) 110 ;;
  wx <- choice Rnd WX_CONDITIONS ;;
  city <- choice Rnd CITIES ;;
  ret (lit "WX HR IN " ++ city ++ lit " IS " ++ wx ++ lit " TEMP " ++ str_of_int temp
       ++ lit "F DE " ++ call).

Definition gen_rtty_beacon : gen rng pystr :=
  call <- random_callsign ;;
  grid0 <- random_grid ;;
  let grid := upper grid0 in
  ret (lit "VVV VVV VVV DE " ++ call ++ lit " " ++ call ++ lit " BEACON " ++ grid
       ++ lit " QSL VIA BUREAU").

Definition gen_rtty_ragchew : gen rng pystr :=
  my_call <- random_callsign ;;
  their_call <- random_callsign ;;
  name <- choice Rnd NAMES ;;
  ant <- choice Rnd ANTENNAS ;;
  height <- randint Rnd 20 100 ;;
  pwr <- choice Rnd (List.map lit ["100"; "500"; "1000"; "1500"]%string) ;;
  years <- randint Rnd 1 50 ;;
  let phrases :=
    [ lit "TNX FER CALL " ++ name;
      lit "FB " ++ name ++ lit " GLAD TO MEET U";
      lit "HW CPY? AGN PSE";
      lit "ANT IS " ++ ant ++ lit " UP " ++ str_of_int height ++ lit "FT";
      lit "PWR IS " ++ pwr ++ lit "W";
      lit "BEEN LICENCED " ++ str_of_int years ++ lit " YRS";
      lit "73 ES HPE CUAGN";
      lit "GL ES DX" ] in
  let msg := their_call ++ lit " DE " ++ my_call ++ lit " " in
  k <- randint Rnd 2 4 ;;
  chosen <- sample Rnd phrases k ;;
  let msg := msg ++ join (lit " ") chosen in
  ending <- choice Rnd (List.map lit ["K"; "KN"; "SK"; "73"]%string) ;;
  ret (msg ++ lit " " ++ ending).

Definition gen_rtty : gen rng pystr :=
  generator <- choice Rnd
    [gen_rtty_cq; gen_rtty_qso_exchange; gen_rtty_contest; gen_rtty_wx_report;
     gen_rtty_beacon; gen_rtty_ragchew] ;;
  generator.

(** *** PSK31 generators (mixed case, conversational) *)

Definition gen_psk_cq : gen rng pystr :=
  call <- random_callsign ;;
  repeats <- randint Rnd 2 3 ;;
  let cq := join (lit " ") (List.repeat (lit "CQ") (Z.to_nat repeats)) in
  name <- choice Rnd NAMES_MIXED ;;
  grid <- random_grid ;;
  let parts := [cq ++ lit " " ++ cq ++ lit " de " ++ call ++ lit " " ++ call] in
  parts <- append_if (5 # 10) parts
             (city <- choice Rnd CITIES ;; ret (name ++ lit " in " ++ title city)) ;;
  parts <- append_if (4 # 10) parts (ret grid) ;;
  last <- choice Rnd (List.map lit ["pse k"; "k"; "kn"]%string) ;;
  ret (join (lit " ") (parts ++ [last])).

Definition gen_psk_qso : gen rng pystr :=
  my_call <- random_callsign ;;
  their_call <- random_callsign ;;
  rst <- random_rst ;;
  name <- choice Rnd NAMES_MIXED ;;
  city0 <- choice Rnd CITIES ;;
  let city := title city0 in
  let parts := [their_call ++ lit " de " ++ my_call] in
  let parts := parts ++ [lit "Hello " ++ name ++ lit ", thanks for the call."] in
  let parts := parts ++ [lit "Your RST is " ++ rst ++ lit "."] in
  my_name <- choice Rnd NAMES_MIXED ;;
  let parts :=
    parts ++ [lit "My name is " ++ my_name ++ lit " and QTH is " ++ city ++ lit "."] in
  last <- choice Rnd (List.map lit ["btu"; "back to you"; "k"; "kn"]%string) ;;
  ret (join (lit " ") (parts ++ [last])).

Definition gen_psk_ragchew : gen rng pystr :=
  years <- randint Rnd 1 50 ;;
  rig <- choice Rnd RIGS ;;
  ant <- choice Rnd ANTENNAS ;;
  cond <- choice Rnd (List.map lit ["good"; "fair"; "poor"; "excellent"; "marginal"]%string) ;;
  band <- choice Rnd BANDS ;;
  city <- choice Rnd CITIES ;;
  wx <- choice Rnd WX_CONDITIONS ;;
  temp <- randint Rnd 20 95 ;;
  mode <- choice Rnd (List.map lit ["FT8"; "JS8Call"; "Winlink"; "VARA"; "ARDOP"]%string) ;;
  copy <- choice Rnd
            (List.map lit ["loud and clear"; "fairly well"; "with some difficulty"]%string) ;;
  let phrases :=
    [ lit "Been a ham for " ++ str_of_int years ++ lit " years now.";
      lit "Running " ++ rig ++ lit " into a " ++ lower ant ++ lit ".";
      lit "Band conditions are " ++ cond ++ lit " today.";
      lit "Working on " ++ band ++ lit " band.";
      lit "Just got back from " ++ title city ++ lit ".";
      lit "Weather here is " ++ lower wx ++ lit ", about " ++ str_of_int temp ++ lit "F.";
      lit "Hoping to work some DX later.";
      lit "Have you tried " ++ mode ++ lit "?";
      lit "Nice signal here, solid copy.";
      lit "Some QRM on freq but copy is ok.";
      lit "I can hear you " ++ copy ++ lit "." ] in
  k <- randint Rnd 2 5 ;;
  chosen <- sample Rnd phrases k ;;
  ret (join (lit " ") chosen).

Definition gen_psk_rig_info : gen rng pystr :=
  rig <- choice Rnd RIGS ;;
  ant0 <- choice Rnd ANTENNAS ;;
  let ant := lower ant0 in
  pwr <- choice Rnd
           (List.map lit ["5"; "10"; "25"; "50"; "100"; "200"; "500"; "1000"; "1500"]%string) ;;
  let parts := [lit "My rig is a " ++ rig ++ lit " running " ++ pwr ++ lit "w"] in
  let parts := parts ++ [lit "into a " ++ ant] in
  parts <- append_if (5 # 10) parts
             (feet <- randint Rnd 15 100 ;; ret (lit "at " ++ str_of_int feet ++ lit " feet")) ;;
  band <- choice Rnd BANDS ;;
  let parts := parts ++ [lit "on " ++ band] in
  ret (join (lit ". ") parts ++ lit ".").

Definition gen_psk_wx : gen rng pystr :=
  city0 <- choice Rnd CITIES ;;
  let city := title city0 in
  temp <- randint Rnd (-10) 105 ;;
  wx0 <- choice Rnd WX_CONDITIONS ;;
  let wx := lower wx0 in
  remark <- choice Rnd
              (List.map lit ["Nice day for radio!"; "Good day to be on the air.";
                             "Perfect wx for antenna work."]%string) ;;
  ret (lit "Weather in " ++ city ++ lit " is " ++ wx ++ lit ", temperature "
       ++ str_of_int temp ++ lit "F. " ++ remark).

Definition gen_psk_closing : gen rng pystr :=
  name <- choice Rnd NAMES_MIXED ;;
  call <- random_callsign ;;
  let closings :=
    [ lit "Well " ++ name
        ++ lit ", it was great chatting with you. 73 and hope to see you again! de "
        ++ call ++ lit " sk";
      lit "Thanks for the nice QSO " ++ name ++ lit ". 73! de " ++ call;
      lit "Must go now " ++ name ++ lit ", 73 es gd DX. de " ++ call ++ lit " sk sk";
      lit "Very nice to meet you " ++ name ++ lit ". Best 73 de " ++ call;
      lit "Ok " ++ name ++ lit ", thanks fer the QSO. Gl es 73 de " ++ call
        ++ lit " dit dit" ] in
  choice Rnd closings.

Definition gen_psk : gen rng pystr :=
  generator <- choice Rnd
    [gen_psk_cq; gen_psk_qso; gen_psk_ragchew; gen_psk_rig_info; gen_psk_wx;
     gen_psk_closing] ;;
  generator.

(** *** FT8 generators (structured, short) *)

Definition gen_ft8_cq : gen rng pystr :=
  call <- random_callsign ;;
  grid0 <- random_grid ;;
  let grid := firstn 4 grid0 in
  r <- random_ ;;
  if Qlt_bool r (2 # 10) then
    prefix <- choice Rnd
                (List.map lit ["CQ DX"; "CQ NA"; "CQ EU"; "CQ AS"; "CQ SA"; "CQ TEST";
                               "CQ POTA"]%string) ;;
    ret (prefix ++ lit " " ++ call ++ lit " " ++ grid)
  else ret (lit "CQ " ++ call ++ lit " " ++ grid).

Definition gen_ft8_reply : gen rng pystr :=
  call1 <- random_callsign ;;
  call2 <- random_callsign ;;
  grid0 <- random_grid ;;
  let grid := firstn 4 grid0 in
  r <- random_ ;;
  if Qlt_bool r (5 # 10) then ret (call1 ++ lit " " ++ call2 ++ lit " " ++ grid)
  else
    db <- random_db ;;
    ret (call1 ++ lit " " ++ call2 ++ lit " " ++ db).

Definition gen_ft8_grid : gen rng pystr :=
  call1 <- random_callsign ;;
  call2 <- random_callsign ;;
  grid0 <- random_grid ;;
  let grid := firstn 4 grid0 in
  ret (call1 ++ lit " " ++ call2 ++ lit " " ++ grid).

Definition gen_ft8_signal : gen rng pystr :=
  call1 <- random_callsign ;;
  call2 <- random_callsign ;;
  db <- random_db ;;
  ret (call1 ++ lit " " ++ call2 ++ lit " " ++ db).

Definition gen_ft8_rrr : gen rng pystr :=
  call1 <- random_callsign ;;
  call2 <- random_callsign ;;
  db <- random_db ;;
  msg <- choice Rnd [lit "RRR"; lit "RR73"; lit "R" ++ db] ;;
  ret (call1 ++ lit " " ++ call2 ++ lit " " ++ msg).

Definition gen_ft8_73 : gen rng pystr :=
  call1 <- random_callsign ;;
  call2 <- random_callsign ;;
  ret (call1 ++ lit " " ++ call2 ++ lit " 73").

Definition STATES : list pystr := List.map lit
  ["AL"; "AK"; "AZ"; "AR"; "CA"; "CO"; "CT"; "DE"; "FL"; "GA"; "HI"; "ID"; "IL"; "IN";
   "IA"; "KS"; "KY"; "LA"; "ME"; "MD"; "MA"; "MI"; "MN"; "MS"; "MO"; "MT"; "NE"; "NV";
   "NH"; "NJ"; "NM"; "NY"; "NC"; "ND"; "OH"; "OK"; "OR"; "PA"; "RI"; "SC"; "SD"; "TN";
   "TX"; "UT"; "VT"; "VA"; "WA"; "WV"; "WI"; "WY"; "DC"]%string.

Definition gen_ft8_contest : gen rng pystr :=
  call1 <- random_callsign ;;
  call2 <- random_callsign ;;
  s <- choice Rnd (List.map lit ["9"; "8"; "7"]%string) ;;
  let rst := lit "5" ++ s in
  state <- choice Rnd STATES ;;
  ret (call1 ++ lit " " ++ call2 ++ lit " " ++ rst ++ lit " " ++ state).

Definition gen_ft8 : gen rng pystr :=
  generator <- choice Rnd
    [gen_ft8_cq; gen_ft8_reply; gen_ft8_grid; gen_ft8_signal; gen_ft8_rrr; gen_ft8_73;
     gen_ft8_contest] ;;
  generator.

(** *** Rattlegram generators (freeform text) *)

Definition gen_rattle_position : gen rng pystr :=
  lat0 <- uniform_ (-60) 70 ;;
  let lat := round4 Fmt lat0 in
  lon0 <- uniform_ (-180) 180 ;;
  let lon := round4 Fmt lon0 in
  call <- random_callsign ;;
  alt <- randint Rnd 0 5000 ;;
  grid <- random_grid ;;
  let templates :=
    [ call ++ lit " position " ++ float_str Fmt lat ++ lit " " ++ float_str Fmt lon;
      lit "Position report: " ++ float_str Fmt lat ++ lit "N "
        ++ float_fixed4 Fmt (Qabs lon) ++ lit "W de " ++ call;
      lit "GPS " ++ float_str Fmt lat ++ lit "," ++ float_str Fmt lon ++ lit " alt "
        ++ str_of_int alt ++ lit "m " ++ call;
      lit "Loc: " ++ float_str Fmt lat ++ lit " " ++ float_str Fmt lon ++ lit " grid "
        ++ grid ++ lit " de " ++ call ] in
  choice Rnd templates.

Definition gen_rattle_message : gen rng pystr :=
  call <- random_callsign ;;
  band <- choice Rnd BANDS ;;
  hour <- randint Rnd 1 12 ;;
  number <- randint Rnd 1 100 ;;
  let messages :=
    [ lit "Net check-in de " ++ call ++ lit " all ok";
      call ++ lit ": Arrived at destination safely";
      lit "Message from " ++ call ++ lit ": Will be QRV on " ++ band ++ lit " at "
        ++ str_of_int hour ++ lit "pm";
      call ++ lit " testing rattlegram " ++ str_of_int number;
      lit "de " ++ call ++ lit ": Equipment working fine. Standing by.";
      lit "ARES net " ++ call ++ lit " checking in. No traffic.";
      call ++ lit ": Packet received ok. ACK.";
      lit "Relay from " ++ call ++ lit ": Need supplies at base camp" ] in
  choice Rnd messages.

Definition gen_rattle_status : gen rng pystr :=
  call <- random_callsign ;;
  battery <- randint Rnd 20 100 ;;
  solar <- choice Rnd (List.map lit ["good"; "fair"; "poor"]%string) ;;
  temp <- randint Rnd (-10) 120 ;;
  pwr <- choice Rnd (List.map lit ["5"; "10"; "25"; "50"; "100"]%string) ;;
  quality <- randint Rnd 50 100 ;;
  snr <- randint Rnd (-5) 30 ;;
  let statuses :=
    [ lit "Battery " ++ str_of_int battery ++ lit "% Solar " ++ solar ++ lit " de " ++ call;
      call ++ lit " status: operational. Temp " ++ str_of_int temp ++ lit "F";
      lit "Station " ++ call ++ lit " on air. PWR " ++ pwr ++ lit "W";
      lit "Link quality: " ++ str_of_int quality ++ lit "% SNR " ++ str_of_int snr
        ++ lit "dB de " ++ call ] in
  choice Rnd statuses.

Definition gen_rattle_chat : gen rng pystr :=
  call1 <- random_callsign ;;
  call2 <- random_callsign ;;
  band <- choice Rnd BANDS ;;
  let phrases :=
    [ lit "Hello, can you copy this?";
      lit "Testing 1 2 3. How copy?";
      lit "Good morning from the hilltop.";
      lit "Rain starting here. Moving inside.";
      lit "All stations, this is a test.";
      lit "Copy your last message. Standing by.";
      lit "Roger that. Will relay to base.";
      lit "Excellent copy on your signal.";
      lit "QSO with " ++ call1 ++ lit " was great.";
      lit "Heard " ++ call2 ++ lit " on " ++ band ++ lit " just now.";
      lit "Everything looks good on this end.";
      lit "Switching to backup frequency now." ] in
  n <- randint Rnd 1 3 ;;
  chosen <- sample Rnd phrases n ;;
  ret (join (lit " ") chosen).

Definition gen_rattle_emergency : gen rng pystr :=
  call <- random_callsign ;;
  grid <- random_grid ;;
  bearing <- randint Rnd 0 359 ;;
  let emergencies :=
    [ lit "EMERGENCY de " ++ call ++ lit ": Need assistance at grid " ++ grid;
      lit "PRIORITY " ++ call ++ lit ": Medical situation. Request help.";
      lit "WELFARE CHECK " ++ call ++ lit ": All members accounted for.";
      lit "SKYWARN " ++ call ++ lit ": Severe weather spotted bearing "
        ++ str_of_int bearing ++ lit " deg" ] in
  choice Rnd emergencies.

Definition gen_rattlegram : gen rng pystr :=
  generator <- choice Rnd
    [gen_rattle_position; gen_rattle_message; gen_rattle_status; gen_rattle_chat;
     gen_rattle_emergency] ;;
  generator.

(** *** Garbage generators *)

Definition gen_garbage_random_ascii : gen rng pystr :=
  length <- randint Rnd 5 200 ;;
  let chars := printable_95 in
  choices Rnd chars length.

Definition gen_garbage_random_alpha : gen rng pystr :=
  length <- randint Rnd 5 150 ;;
  choices Rnd (LETTERS ++ lower LETTERS) length.

Definition gen_garbage_punctuation : gen rng pystr :=
  length <- randint Rnd 10 100 ;;
  let chars := punctuation ++ lit " " in
  choices Rnd chars length.

Definition gen_garbage_repeated_chars : gen rng pystr :=
  char <- choice_char printable_62 ;;
  repeats <- randint Rnd 10 100 ;;
  let base := str_mul char repeats in
  let result := base in
  count <- randint Rnd 0 5 ;;
  for_range (Z.to_nat count)
    (fun result =>
       pos <- randint Rnd 0 (len result - 1) ;;
       c <- choice Rnd printable_62 ;;
       raise_if_none (list_assign result pos c))
    result.

Definition gen_garbage_corrupted : gen rng pystr :=
  generator <- choice Rnd [gen_rtty; gen_psk; gen_ft8; gen_rattlegram] ;;
  legit <- generator ;;
  let result := legit in
  corruption <- uniform_ (4 # 10) (7 # 10) ;;
  let n_corrupt := int_of_float (inject_Z (len result) * corruption) in
  positions <- sample Rnd (range (len result)) (Z.min n_corrupt (len result)) ;;
  for_each positions
    (fun pos result =>
       c <- choice Rnd printable_95 ;;
       raise_if_none (list_assign result pos c))
    result.

Definition gen_garbage_random_spaced : gen rng pystr :=
  count <- randint Rnd 2 15 ;;
  words <- for_range (Z.to_nat count)
             (fun words =>
                word_len <- randint Rnd 1 8 ;;
                word <- choices Rnd (LETTERS ++ lower LETTERS) word_len ;;
                ret (words ++ [word]))
             [] ;;
  ret (join (lit " ") words).

Definition gen_garbage_high_entropy : gen rng pystr :=
  length <- randint Rnd 20 150 ;;
  let chars := printable_95 in
  choices Rnd chars length.

Definition gen_garbage_numeric : gen rng pystr :=
  length <- randint Rnd 10 80 ;;
  choices Rnd (DIGITS ++ lit " .-+") length.

Definition gen_garbage_short_noise : gen rng pystr :=
  length <- randint Rnd 1 10 ;;
  choices Rnd printable_95 length.

Definition gen_garbage_mixed_symbols : gen rng pystr :=
  length <- randint Rnd 10 100 ;;
  let chars := LETTERS ++ DIGITS ++ lit "!@#$%^&*()[]{}|\/<>~`" in
  choices Rnd chars length.

Definition gen_garbage_garbled_rtty : gen rng pystr :=
  length <- randint Rnd 5 40 ;;
  chars <- for_range (Z.to_nat length)
             (fun chars =>
                r <- random_ ;;
                if Qlt_bool r (75 # 100) then
                  c <- choice_char LETTERS ;; ret (chars ++ [c])
                else if Qlt_bool r (88 # 100) then
                  c <- choice_char LETTERS ;; ret ((chars ++ [c]) ++ [c])
                else if Qlt_bool r (95 # 100) then
                  c <- choice_char DIGITS ;; ret (chars ++ [c])
                else
                  c <- choice_char (lit ".,;:") ;; ret (chars ++ [c]))
             [] ;;
  let result := List.concat chars in
  r <- random_ ;;
  result <-
    (if Qlt_bool r (4 # 10) then
       count <- randint Rnd 1 2 ;;
       for_range (Z.to_nat count)
         (fun result =>
            pos <- randint Rnd 1 (Z.max 1 (len result - 2)) ;;
            ret (firstn (Z.to_nat pos) result ++ lit " " ++ skipn (Z.to_nat pos) result))
         result
     else ret result) ;;
  ret (firstn 50 result).

Definition gen_garbage : gen rng pystr :=
  generator <- choice Rnd
    [gen_garbage_random_ascii; gen_garbage_random_alpha; gen_garbage_punctuation;
     gen_garbage_repeated_chars; gen_garbage_corrupted; gen_garbage_random_spaced;
     gen_garbage_high_entropy; gen_garbage_numeric; gen_garbage_short_noise;
     gen_garbage_mixed_symbols; gen_garbage_garbled_rtty] ;;
  generator.

(** *** Main *)

(** [for _ in range(n): samples.append((generator(), label))] *)
Definition append_samples (n : Z) (generator : gen rng pystr) (label : Z)
    (samples : list (pystr * Z)) : gen rng (list (pystr * Z)) :=
  for_range (Z.to_nat n)
    (fun samples => text <- generator ;; ret (samples ++ [(text, label)]))
    samples.

(** The samples before the shuffle. *)
Definition generate_samples : gen rng (list (pystr * Z)) :=
  let samples := [] in
  samples <- append_samples 12000 gen_rtty 1 samples ;;
  samples <- append_samples 12000 gen_psk 1 samples ;;
  samples <- append_samples 16000 gen_ft8 1 samples ;;
  samples <- append_samples 10000 gen_rattlegram 1 samples ;;
  samples <- append_samples TOTAL_GARBAGE gen_garbage 0 samples ;;
  ret samples.

(** [int(len(samples) * TRAIN_RATIO)] with [TRAIN_RATIO = 0.8]: the
    product is taken exactly, as eight tenths. *)
Definition split_index (samples : list (pystr * Z)) : nat :=
  Z.to_nat (Z.of_nat (List.length samples) * 8 / 10).

(** [str(label)] for the two labels. *)
Definition str_of_label (label : Z) : pystr := str_of_int label.

(** The rows written to one file: the header, then one row per sample
    with the line breaks of the text replaced. *)
Definition rows_of (data : list (pystr * Z)) : list (list pystr) :=
  [lit "text"; lit "label"]
  :: List.map
       (fun s : pystr * Z =>
          let clean := replace 13 32 (replace 10 32 (fst s)) in
          [clean; str_of_label (snd s)])
       data.

(** What [generate_dataset] leaves behind: the shuffled samples, the two
    splits and the rows of [data/train.csv] and of [data/test.csv]. *)
Record dataset := Dataset {
  shuffled : list (pystr * Z);
  train : list (pystr * Z);
  test : list (pystr * Z);
  train_rows : list (list pystr);
  test_rows : list (list pystr)
}.

Definition generate_dataset : option dataset :=
  let g := seed Rnd SEED in
  match generate_samples g with
  | None => None
  | Some (samples, g) =>
      let (samples, g) := shuffle Rnd samples g in
      let split := split_index samples in
      let train := firstn split samples in
      let test := skipn split samples in
      Some {| shuffled := samples; train := train; test := test;
              train_rows := rows_of train; test_rows := rows_of test |}
  end.
End Generators.

(** ** Notions used by the statements and their proofs *)

(** Texts paired with one label. *)
Definition labelled (label : Z) (texts : list pystr) : list (pystr * Z) :=
  List.map (fun text => (text, label)) texts.

(** [drawn c g texts g']: from the stream state [g], successive calls of the
    generator [c] return the texts [texts], in this order, and leave the
    stream in state [g']. *)
Inductive drawn {rng : Type} (c : gen rng pystr) : rng -> list pystr -> rng -> Prop :=
| drawn_nil : forall g, drawn c g [] g
| drawn_cons : forall g text g1 texts g2,
    c g = Some (text, g1) -> drawn c g1 texts g2 -> drawn c g (text :: texts) g2.

(** A computation returns, on every state of the stream, a value that
    satisfies [P]. *)
Definition returns {rng A : Type} (P : A -> Prop) (c : gen rng A) : Prop :=
  forall g, exists x g', c g = Some (x, g') /\ P x.

(** A field without line feed and without carriage return. *)
Definition newline_free (field : pystr) : Prop :=
  ~ List.In 10%N field /\ ~ List.In 13%N field.

(** The characters of a decimal numeral: the minus sign and the digits. *)
Definition decimal_char (c : codepoint) : Prop := c = 45%N \/ (48 <= c <= 57)%N.

(** [clean] is [text] with every line feed and every carriage return
    replaced by a space, and every other character kept. *)
Definition cleaned (text clean : pystr) : Prop :=
  List.length clean = List.length text /\
  forall j c, nth_error text j = Some c ->
    nth_error clean j = Some (if (N.eqb c 10 || N.eqb c 13)%bool then 32%N else c).

(** A small [random] module on which the statements can be run: the state
    is a counter, every call steps it and returns the first admissible
    value, and the shuffle reverses the list. *)
Definition demo_random : random_module nat := {|
  seed s := Z.to_nat s;
  random g := (0%Q, S g);
  uniform a b g := (a, S g);
  randint a b g := if (a <=? b)%Z then Some (a, S g) else None;
  choice A xs g := match xs with x :: _ => Some (x, S g) | [] => None end;
  choices A xs k g :=
    match xs with
    | x :: _ => Some (List.repeat x (Z.to_nat k), S g)
    | [] => None
    end;
  sample A xs k g :=
    if (0 <=? k)%Z && (k <=? Z.of_nat (List.length xs))%Z
    then Some (firstn (Z.to_nat k) xs, S g) else None;
  shuffle A xs g := (List.rev xs, S g)
|}.

(** A float format for the same purpose: no rounding, and the integer part
    for a text. *)
Definition demo_format : float_format := {|
  round4 x := x;
  float_str x := str_of_int (Qfloor x);
  float_fixed4 x := str_of_int (Qfloor x)
|}.

End GenerateData.

(* ===================================================================== *)
(** * Properties of the feature extractor *)
(* ===================================================================== *)

Module ExtractFacts.
Import Py Re TrainModel.

Local Open Scope R_scope.

(** ** Keys *)

(** Two keys that differ at a known position are different. *)
Ltac key_ne :=
  let H := fresh in
  intros H;
  cbv [lit List.map list_ascii_of_string N_of_ascii N_of_digits app] in H;
  simpl in H; discriminate H.

(** ** Counting *)

Lemma count_bounds {A} (p : A -> bool) (xs : list A) :
  (0 <= count p xs <= Z.of_nat (List.length xs))%Z.
Proof.
  induction xs as [|x xs IH]; simpl List.length; simpl count.
  - lia.
  - destruct (p x); lia.
Qed.

Lemma count_app {A} (p : A -> bool) (xs ys : list A) :
  count p (xs ++ ys) = (count p xs + count p ys)%Z.
Proof.
  induction xs as [|x xs IH]; simpl; [reflexivity|].
  destruct (p x); rewrite IH; lia.
Qed.

Lemma count_disjoint3 {A} (p q r : A -> bool) (xs : list A) :
  (forall x, p x = true -> q x = false) ->
  (forall x, r x = true -> p x = false /\ q x = false) ->
  (count p xs + count q xs + count r xs <= Z.of_nat (List.length xs))%Z.
Proof.
  intros Hpq Hr. induction xs as [|x xs IH]; simpl List.length; simpl count.
  - lia.
  - specialize (Hpq x). specialize (Hr x).
    destruct (p x) eqn:Ep, (q x) eqn:Eq, (r x) eqn:Er;
      try (specialize (Hpq eq_refl)); try (destruct (Hr eq_refl));
      try discriminate; lia.
Qed.

Lemma count_flat_map_le {A B} (p : B -> bool) (q : A -> bool) (f : A -> list B)
    (xs : list A) :
  (forall x, (count p (f x) <= (if q x then 1 else 0))%Z) ->
  (count p (List.flat_map f xs) <= count q xs)%Z.
Proof.
  intros Hf. induction xs as [|x xs IH]; simpl; [lia|].
  rewrite count_app. specialize (Hf x). destruct (q x); lia.
Qed.

(** ** Real-valued helpers *)

Lemma ratio_bounds (a n : Z) :
  (0 <= a <= n)%Z -> (0 < n)%Z -> 0 <= IZR a / IZR n <= 1.
Proof.
  intros [Ha Han] Hn.
  apply IZR_le in Ha, Han. apply IZR_lt in Hn.
  assert (Hinv : 0 < / IZR n) by (apply Rinv_0_lt_compat; exact Hn).
  assert (Hone : IZR n * / IZR n = 1) by (apply Rinv_r; lra).
  unfold Rdiv. split; [nra|]. nra.
Qed.

Lemma clip_bounds (x : R) : 0 <= x -> 0 <= Rmin x 1 <= 1.
Proof. intros Hx. unfold Rmin. destruct (Rle_dec x 1); lra. Qed.

Lemma len_pos (text : pystr) : text <> [] -> (0 < len text)%Z.
Proof. destruct text; [congruence|]. unfold len. simpl List.length. lia. Qed.

Lemma len_nonneg (text : pystr) : (0 <= len text)%Z.
Proof. unfold len. lia. Qed.

Lemma len_eqb_nonempty (text : pystr) : text <> [] -> (len text =? 0)%Z = false.
Proof. intros H. apply len_pos in H. apply Z.eqb_neq. lia. Qed.

Lemma fold_max_ge (xs : list Z) (a : Z) : (a <= List.fold_left Z.max xs a)%Z.
Proof.
  revert a. induction xs as [|x xs IH]; intros a; simpl; [lia|].
  specialize (IH (Z.max a x)). lia.
Qed.

Lemma fold_add_nonneg (xs : list Z) (a : Z) :
  Forall (fun x => 0 <= x)%Z xs -> (a <= List.fold_left Z.add xs a)%Z.
Proof.
  intros H. revert a. induction H as [|x xs Hx _ IH]; intros a; simpl; [lia|].
  specialize (IH (a + x)%Z). lia.
Qed.

Lemma lens_nonneg (words : list pystr) : Forall (fun x => 0 <= x)%Z (List.map len words).
Proof. apply List.Forall_forall. intros x [w [<- _]]%in_map_iff. apply len_nonneg. Qed.

(** ** Looking a key up in the result *)

Section Lookup.
Context (U : unicode).

(** The window loops only write n-gram keys. *)
Lemma count_ngrams_lookup_other (prefix : pystr) (n : nat) (upper_text : pystr)
    (features : gmap pystr R) (k : pystr) :
  (forall w, prefix ++ w <> k) ->
  count_ngrams U prefix n upper_text features !! k = features !! k.
Proof.
  intros Hk. unfold count_ngrams.
  generalize (seq 0 (List.length upper_text - (n - 1))) as idx.
  intros idx. revert features.
  induction idx as [|i idx IH]; intros features; simpl; [reflexivity|].
  rewrite IH. destruct (forallb _ _); [|reflexivity].
  apply lookup_insert_ne, Hk.
Qed.

Ltac open_extract Hne :=
  unfold extract_features; rewrite (len_eqb_nonempty _ Hne); cbv zeta;
  destruct (split U _) eqn:?; destruct (len _ >? 1)%Z eqn:?.

Ltac find_key :=
  repeat first
    [ rewrite lookup_insert_ne by key_ne
    | rewrite count_ngrams_lookup_other by (intros ?; key_ne) ];
  try (rewrite lookup_insert_eq; reflexivity).

Lemma lookup_len (text : pystr) : text <> [] ->
  extract_features U text !! lit "len" = Some (Rmin (IZR (len text) / 200) 1).
Proof. intros Hne. open_extract Hne; find_key. Qed.

Lemma lookup_alpha_ratio (text : pystr) : text <> [] ->
  extract_features U text !! lit "alpha_ratio"
  = Some (IZR (count (isalpha U) text) / IZR (len text)).
Proof. intros Hne. open_extract Hne; find_key. Qed.

Lemma lookup_digit_ratio (text : pystr) : text <> [] ->
  extract_features U text !! lit "digit_ratio"
  = Some (IZR (count (isdigit U) text) / IZR (len text)).
Proof. intros Hne. open_extract Hne; find_key. Qed.

Lemma lookup_space_ratio (text : pystr) : text <> [] ->
  extract_features U text !! lit "space_ratio"
  = Some (IZR (count (fun c => N.eqb c 32) text) / IZR (len text)).
Proof. intros Hne. open_extract Hne; find_key. Qed.

Lemma lookup_upper_ratio (text : pystr) : text <> [] ->
  extract_features U text !! lit "upper_ratio"
  = Some (if (count (isalpha U) text >? 0)%Z
          then IZR (count (isupper U) text) / IZR (len text) else 0).
Proof. intros Hne. open_extract Hne; find_key. Qed.

Lemma lookup_special_ratio (text : pystr) : text <> [] ->
  extract_features U text !! lit "special_ratio"
  = Some (IZR (len text - count (isalpha U) text - count (isdigit U) text
               - count (fun c => N.eqb c 32) text) / IZR (len text)).
Proof. intros Hne. open_extract Hne; find_key. Qed.

Lemma lookup_entropy (text : pystr) : text <> [] ->
  extract_features U text !! lit "entropy" = Some (shannon_entropy text / 8).
Proof. intros Hne. open_extract Hne; find_key. Qed.

Lemma lookup_vowel_ratio (text : pystr) : text <> [] ->
  extract_features U text !! lit "vowel_ratio"
  = Some (if (count (isalpha U) text >? 0)%Z
          then IZR (count is_vowel (str_upper U text)) / IZR (count (isalpha U) text)
          else 0).
Proof. intros Hne. open_extract Hne; find_key. Qed.

Lemma lookup_repeated_pair_ratio (text : pystr) : text <> [] ->
  extract_features U text !! lit "repeated_pair_ratio"
  = Some (if (len text >? 1)%Z
          then IZR (count (fun i => N.eqb (nth i text 0%N) (nth (i + 1) text 0%N))
                          (seq 0 (Z.to_nat (len text - 1))))
               / IZR (len text - 1)
          else 0).
Proof. intros Hne. open_extract Hne; find_key. Qed.

Lemma lookup_has_rst (text : pystr) : text <> [] ->
  extract_features U text !! lit "has_rst" = Some (flag (search U RST_RE text)).
Proof. intros Hne. open_extract Hne; find_key. Qed.

Lemma lookup_words_none (text : pystr) : text <> [] -> split U text = [] ->
  extract_features U text !! lit "max_word_len" = Some (Rmin (IZR (len text) / 20) 1) /\
  extract_features U text !! lit "avg_word_len" = Some (Rmin (IZR (len text) / 10) 1) /\
  extract_features U text !! lit "word_count" = Some 0.
Proof.
  intros Hne Hw. unfold extract_features.
  rewrite (len_eqb_nonempty _ Hne), Hw; cbv zeta.
  destruct (len _ >? 1)%Z; repeat split; find_key.
Qed.

Lemma lookup_words_some (text : pystr) (w : pystr) (ws : list pystr) : text <> [] -> split U text = w :: ws ->
  let word_lens := List.map len (w :: ws) in
  extract_features U text !! lit "max_word_len"
  = Some (Rmin (IZR (max_list word_lens) / 20) 1) /\
  extract_features U text !! lit "avg_word_len"
  = Some (Rmin (IZR (sum_list word_lens) / IZR (Z.of_nat (List.length word_lens)) / 10) 1) /\
  extract_features U text !! lit "word_count"
  = Some (Rmin (IZR (Z.of_nat (List.length (w :: ws))) / 20) 1).
Proof.
  intros Hne Hw. unfold extract_features.
  rewrite (len_eqb_nonempty _ Hne), Hw; cbv zeta.
  destruct (len _ >? 1)%Z; repeat split; find_key.
Qed.
Lemma lookup_flags (text : pystr) : text <> [] ->
  extract_features U text !! lit "has_callsign"
  = Some (flag (search U CALLSIGN_RE (str_upper U text))) /\
  extract_features U text !! lit "has_grid" = Some (flag (search U GRID_RE text)) /\
  extract_features U text !! lit "has_cq" = Some (flag (search U CQ_RE text)) /\
  extract_features U text !! lit "has_de" = Some (flag (search U DE_RE text)) /\
  extract_features U text !! lit "has_73" = Some (flag (search U SEVENTY_THREE_RE text)) /\
  extract_features U text !! lit "has_db_report"
  = Some (flag (search U DB_REPORT_RE text)) /\
  extract_features U text !! lit "has_rrr" = Some (flag (search U RRR_RE text)).
Proof. intros Hne. open_extract Hne; repeat split; find_key. Qed.
End Lookup.

(** ** The frequency table *)

Lemma freq_incr_total (ch : codepoint) (freq : list (codepoint * Z)) :
  counts_total (List.map snd (freq_incr ch freq))
  = (counts_total (List.map snd freq) + 1)%Z.
Proof.
  induction freq as [|[k n] freq IH]; simpl; [reflexivity|].
  destruct (N.eqb k ch); simpl; lia.
Qed.

Lemma freq_incr_positive (ch : codepoint) (freq : list (codepoint * Z)) :
  List.Forall (fun n => 1 <= n)%Z (List.map snd freq) ->
  List.Forall (fun n => 1 <= n)%Z (List.map snd (freq_incr ch freq)).
Proof.
  induction freq as [|[k n] freq IH]; simpl; intros H.
  - constructor; [lia | constructor].
  - inversion H as [|? ? Hn Hrest]; subst.
    destruct (N.eqb k ch); simpl; constructor; auto; lia.
Qed.

Lemma freq_incr_keys (ch : codepoint) (freq : list (codepoint * Z)) :
  (List.In ch (List.map fst freq)
   /\ List.map fst (freq_incr ch freq) = List.map fst freq)
  \/ (~ List.In ch (List.map fst freq)
      /\ freq_incr ch freq = freq ++ [(ch, 1%Z)]).
Proof.
  induction freq as [|[k n] freq IH]; simpl.
  - right. split; [tauto | reflexivity].
  - destruct (N.eqb_spec k ch) as [->|Hne].
    + left. split; [left; reflexivity | reflexivity].
    + destruct IH as [[Hin Heq]|[Hnin Heq]].
      * left. split; [right; exact Hin | simpl; rewrite Heq; reflexivity].
      * right. split; [intros [?|?]; [congruence | tauto] | rewrite Heq; reflexivity].
Qed.

Lemma freq_from_total (text : pystr) (freq : list (codepoint * Z)) :
  counts_total (List.map snd (freq_from freq text))
  = (counts_total (List.map snd freq) + len text)%Z.
Proof.
  unfold freq_from, len. revert freq.
  induction text as [|c text IH]; intros freq; simpl List.fold_left; simpl List.length.
  - lia.
  - rewrite IH, freq_incr_total. lia.
Qed.

Lemma freq_from_positive (text : pystr) (freq : list (codepoint * Z)) :
  List.Forall (fun n => 1 <= n)%Z (List.map snd freq) ->
  List.Forall (fun n => 1 <= n)%Z (List.map snd (freq_from freq text)).
Proof.
  unfold freq_from. revert freq.
  induction text as [|c text IH]; intros freq H; simpl; [exact H|].
  apply IH, freq_incr_positive, H.
Qed.

(** The table counts every character once, each entry is positive, and
    there is one entry per distinct character. *)
Lemma char_freq_total (text : pystr) :
  counts_total (List.map snd (char_freq text)) = len text.
Proof. apply (freq_from_total text []). Qed.

Lemma char_freq_positive (text : pystr) :
  List.Forall (fun n => 1 <= n)%Z (List.map snd (char_freq text)).
Proof. apply (freq_from_positive text []). constructor. Qed.

(** A string without repeated characters: every entry counts one. *)
Lemma freq_from_fresh (text : pystr) (freq : list (codepoint * Z)) :
  List.NoDup (List.map fst freq ++ text) ->
  freq_from freq text = freq ++ List.map (fun c => (c, 1%Z)) text.
Proof.
  unfold freq_from. revert freq.
  induction text as [|c text IH]; intros freq Hnd; simpl.
  - rewrite app_nil_r. reflexivity.
  - destruct (freq_incr_keys c freq) as [[Hin _]|[_ Heq]].
    + exfalso. apply NoDup_remove_2 in Hnd. apply Hnd, in_or_app. left. exact Hin.
    + rewrite Heq, IH.
      * rewrite <- app_assoc. reflexivity.
      * rewrite List.map_app. simpl. rewrite <- app_assoc. exact Hnd.
Qed.

(** ** Entropy *)

Lemma entropy_fold (length : Z) (counts : list Z) (e : R) :
  List.fold_left (entropy_step length) counts e
  = e + Rsum (List.map (entropy_term length) counts).
Proof.
  revert e. induction counts as [|c counts IH]; intros e; simpl.
  - lra.
  - rewrite IH. unfold entropy_step, entropy_term.
    destruct (Rlt_dec 0 (IZR c / IZR length)); lra.
Qed.

Lemma ln2_pos : 0 < ln 2.
Proof. rewrite <- ln_1. apply ln_increasing; lra. Qed.

Lemma ln_nonpos (p : R) : 0 < p -> p <= 1 -> ln p <= 0.
Proof.
  intros H0 H1. destruct (Req_dec p 1) as [->|Hne].
  - rewrite ln_1. lra.
  - rewrite <- ln_1. left. apply ln_increasing; lra.
Qed.

Lemma entropy_term_nonneg (length count : Z) :
  (1 <= count <= length)%Z -> 0 <= entropy_term length count.
Proof.
  intros [Hc Hcl]. unfold entropy_term.
  set (p := IZR count / IZR length).
  assert (Hp : 0 < p <= 1).
  { pose proof (ratio_bounds count length ltac:(lia) ltac:(lia)) as [_ Hle].
    split; [|exact Hle]. unfold p, Rdiv.
    apply Rmult_lt_0_compat; [apply IZR_lt; lia|].
    apply Rinv_0_lt_compat, IZR_lt; lia. }
  destruct (Rlt_dec 0 p) as [_|Hn]; [|lra].
  pose proof ln2_pos as H2.
  pose proof (ln_nonpos p (proj1 Hp) (proj2 Hp)) as Hln.
  unfold log2.
  assert (0 <= - (p * ln p)) by nra.
  assert (Hinv : 0 < / ln 2) by (apply Rinv_0_lt_compat; lra).
  replace (- (p * (ln p / ln 2))) with (- (p * ln p) * / ln 2) by (field; lra).
  nra.
Qed.

Lemma entropy_sum_nonneg (length : Z) (counts : list Z) :
  List.Forall (fun c => 1 <= c <= length)%Z counts ->
  0 <= Rsum (List.map (entropy_term length) counts).
Proof.
  intros H. induction H as [|c counts Hc _ IH].
  - simpl. lra.
  - pose proof (entropy_term_nonneg length c Hc) as T0.
    simpl List.map. simpl Rsum. lra.
Qed.

Lemma counts_le_total (counts : list Z) :
  List.Forall (fun c => 1 <= c)%Z counts ->
  List.Forall (fun c => 1 <= c <= counts_total counts)%Z counts.
Proof.
  induction 1 as [|c counts Hc Hrest IH]; constructor.
  - simpl. assert (0 <= counts_total counts)%Z; [|lia].
    clear IH. induction Hrest; simpl; lia.
  - eapply List.Forall_impl; [|exact IH]. simpl. intros; lia.
Qed.

(** The entropy is never negative. *)
Lemma shannon_entropy_nonneg (text : pystr) : 0 <= shannon_entropy text.
Proof.
  destruct text as [|c text]; [simpl; lra|].
  unfold shannon_entropy. cbv zeta. rewrite entropy_fold.
  pose proof (counts_le_total _ (char_freq_positive (c :: text))) as H.
  rewrite char_freq_total in H.
  pose proof (entropy_sum_nonneg _ _ H). lra.
Qed.

(** With nothing rounded the two loops are those of [shannon_entropy]. *)
Lemma shannon_entropy_exact (text : pystr) :
  shannon_entropy_rounded exact_ops text = shannon_entropy text.
Proof. reflexivity. Qed.

Lemma exact_ops_sign_preserving : sign_preserving exact_ops.
Proof.
  split; [reflexivity|]. split; [reflexivity|]. split; [intros x y H; exact H|].
  intros p H0 H1. simpl. unfold log2. pose proof ln2_pos as H2.
  pose proof (ln_nonpos p H0 H1) as Hln.
  assert (Hinv : 0 < / ln 2) by (apply Rinv_0_lt_compat; lra).
  unfold Rdiv. nra.
Qed.

Lemma entropy_fold_rounded_nonneg (F : float_ops) (length : Z) (counts : list Z) (e : R) :
  sign_preserving F ->
  List.Forall (fun c => 1 <= c <= length)%Z counts -> 0 <= e ->
  0 <= List.fold_left (entropy_step_rounded F length) counts e.
Proof.
  intros (H0 & H1 & Hmono & Hlog) H. revert e.
  induction H as [|c counts Hc _ IH]; intros e He; [exact He|].
  simpl. apply IH. unfold entropy_step_rounded. cbv zeta.
  set (p := rnd F (IZR c / IZR length)).
  destruct (Rlt_dec 0 p) as [Hp|_]; [|exact He].
  assert (Hp1 : p <= 1).
  { rewrite <- H1. apply Hmono.
    apply (ratio_bounds c length ltac:(lia) ltac:(lia)). }
  pose proof (Hlog p Hp Hp1) as Hl.
  assert (Ht : rnd F (p * flog2 F p) <= 0).
  { rewrite <- H0. apply Hmono. nra. }
  rewrite <- H0. apply Hmono. lra.
Qed.

(** The sign of the entropy feature does not depend on the arithmetic being
    exact: under every rounding that keeps 0, 1 and the order, the entropy
    summed in doubles and its eighth are not negative. *)
Lemma entropy_feature_rounded_nonneg (F : float_ops) (text : pystr) :
  sign_preserving F ->
  0 <= shannon_entropy_rounded F text /\
  0 <= rnd F (shannon_entropy_rounded F text / 8).
Proof.
  intros HF.
  assert (He : 0 <= shannon_entropy_rounded F text).
  { destruct text as [|c text]; [simpl; lra|].
    unfold shannon_entropy_rounded. cbv zeta.
    pose proof (counts_le_total _ (char_freq_positive (c :: text))) as H.
    rewrite char_freq_total in H.
    apply entropy_fold_rounded_nonneg; [exact HF | exact H | lra]. }
  split; [exact He|].
  destruct HF as (H0 & _ & Hmono & _). rewrite <- H0. apply Hmono. lra.
Qed.

Lemma ln_256 : ln 256 = 8 * ln 2.
Proof.
  replace 256 with (2 ^ 8) by lra.
  rewrite ln_pow by lra. simpl INR. lra.
Qed.

(** A string of [n] characters, all different, has entropy [log2 n]. *)
Lemma Rsum_constant (length : Z) (counts : list Z) :
  List.Forall (fun c => c = 1%Z) counts ->
  Rsum (List.map (entropy_term length) counts)
  = INR (List.length counts) * entropy_term length 1.
Proof.
  induction 1 as [|c counts -> _ IH].
  - simpl. lra.
  - change (List.length (1%Z :: counts)) with (S (List.length counts)).
    rewrite S_INR. simpl. rewrite IH. lra.
Qed.

Lemma shannon_entropy_nodup (text : pystr) :
  text <> [] -> List.NoDup text ->
  shannon_entropy text = log2 (IZR (len text)).
Proof.
  intros Hne Hnd. pose proof (len_pos text Hne) as Hlen.
  destruct text as [|c text]; [congruence|].
  unfold shannon_entropy. cbv zeta. rewrite entropy_fold.
  unfold char_freq. fold (freq_from [] (c :: text)).
  rewrite freq_from_fresh by exact Hnd. rewrite app_nil_l.
  rewrite (List.map_map (fun c : N => (c, 1%Z)) snd).
  rewrite Rsum_constant.
  2:{ apply List.Forall_forall. intros x [y [<- _]]%in_map_iff. reflexivity. }
  rewrite List.length_map.
  set (n := len (c :: text)) in *.
  replace (INR (List.length (c :: text))) with (IZR n)
    by (unfold n, len; rewrite INR_IZR_INZ; reflexivity).
  assert (Hn : 0 < IZR n) by (apply IZR_lt; lia).
  unfold entropy_term.
  assert (Hp : 0 < 1 / IZR n) by (apply Rdiv_lt_0_compat; lra).
  destruct (Rlt_dec 0 (1 / IZR n)) as [_|Hc]; [|contradiction].
  assert (Hln : ln (1 / IZR n) = - ln (IZR n)).
  { unfold Rdiv. rewrite Rmult_1_l. apply ln_Rinv. exact Hn. }
  unfold log2. rewrite Hln.
  pose proof ln2_pos. field. split; lra.
Qed.

Lemma text257_nodup : List.NoDup text257.
Proof.
  unfold text257. apply Finite.Injective_map_NoDup; [|apply seq_NoDup].
  intros x y H. lia.
Qed.

Lemma text257_entropy : shannon_entropy text257 = log2 257.
Proof.
  rewrite shannon_entropy_nodup; [|discriminate|apply text257_nodup].
  unfold len, text257. rewrite List.length_map, length_seq. reflexivity.
Qed.

Lemma log2_257_gt_8 : 8 < log2 257.
Proof.
  unfold log2. pose proof ln2_pos as H2.
  apply Rmult_lt_reg_r with (ln 2); [exact H2|].
  replace (ln 257 / ln 2 * ln 2) with (ln 257) by (field; lra).
  rewrite <- ln_256. apply ln_increasing; lra.
Qed.

(** ** The n-gram counters *)

Lemma counters_ok_insert_other (features : gmap pystr R) (k : pystr) (v : R) :
  ~ ngram_key k -> counters_ok features -> counters_ok (<[k := v]> features).
Proof.
  intros Hk H k' v' Hk' Hl.
  rewrite lookup_insert_ne in Hl; [eapply H; eauto|].
  intros ->. contradiction.
Qed.

Lemma count_ngrams_counters (U : unicode) (prefix : pystr) (n : nat)
    (upper_text : pystr) (features : gmap pystr R) :
  (forall w, ngram_key (prefix ++ w)) ->
  counters_ok features -> counters_ok (count_ngrams U prefix n upper_text features).
Proof.
  intros Hp. unfold count_ngrams.
  generalize (seq 0 (List.length upper_text - (n - 1))) as idx.
  intros idx. revert features.
  induction idx as [|i idx IH]; intros features Hok; simpl; [exact Hok|].
  apply IH. destruct (forallb _ _); [|exact Hok].
  intros k v Hk Hl.
  destruct (decide (prefix ++ slice i (i + n) upper_text = k)) as [<-|Hne].
  - rewrite lookup_insert_eq in Hl. injection Hl as <-.
    destruct (features !! _) as [v0|] eqn:E; simpl.
    + destruct (Hok _ _ (Hp _) E) as [m [Hm ->]].
      exists (m + 1)%Z. split; [lia|]. rewrite plus_IZR. reflexivity.
    + exists 1%Z. split; [lia|]. lra.
  - rewrite lookup_insert_ne in Hl by exact Hne. eapply Hok; eauto.
Qed.

Ltac not_ngram :=
  let H := fresh in
  intros [[? H]|[? H]]; revert H; key_ne.

Lemma extract_counters (U : unicode) (text : pystr) :
  counters_ok (extract_features U text).
Proof.
  unfold extract_features.
  destruct (len text =? 0)%Z; cbv zeta.
  - repeat (apply counters_ok_insert_other; [not_ngram|]).
    intros k v _ Hl. rewrite lookup_empty in Hl. discriminate.
  - repeat (apply counters_ok_insert_other; [not_ngram|]).
    destruct (len text >? 1)%Z;
      repeat (apply counters_ok_insert_other; [not_ngram|]);
      destruct (split U text);
      repeat (apply counters_ok_insert_other; [not_ngram|]);
      (apply count_ngrams_counters; [intros w; right; eexists; reflexivity|]);
      (apply count_ngrams_counters; [intros w; left; eexists; reflexivity|]);
      repeat (apply counters_ok_insert_other; [not_ngram|]);
      intros k v _ Hl; rewrite lookup_empty in Hl; discriminate.
Qed.

(** ** Searching *)

Lemma search_iff (U : unicode) (p : pattern) (text : pystr) :
  search U p text = true <->
  exists pre post,
    text = pre ++ post /\ run U (ignorecase p) (body p) (Cursor (List.rev pre) post) <> [].
Proof.
  unfold search. rewrite existsb_exists. split.
  - intros [i [_ Hm]]. exists (firstn i text), (skipn i text).
    split; [symmetry; apply firstn_skipn|].
    unfold matches_at, cursor_at in Hm.
    destruct (run _ _ _ _); [discriminate | discriminate].
  - intros [pre [post [-> Hrun]]]. exists (List.length pre). split.
    + apply in_seq. rewrite List.length_app. lia.
    + unfold matches_at, cursor_at.
      rewrite firstn_app, Nat.sub_diag, firstn_all, firstn_O, app_nil_r.
      rewrite skipn_app, Nat.sub_diag, skipn_all. simpl.
      destruct (run _ _ _ _); [congruence | reflexivity].
Qed.


(** ** The matcher, construct by construct *)

Section RunFacts.
Context (U : unicode) (ic : bool).

Lemma run_nonempty (r : regex) (cur : cursor) :
  run U ic r cur <> [] <-> exists cur', List.In cur' (run U ic r cur).
Proof.
  destruct (run U ic r cur) as [|c l]; split.
  - congruence.
  - intros [? []].
  - intros _. exists c. left. reflexivity.
  - congruence.
Qed.

Lemma in_run_cat (r1 r2 : regex) (cur cur' : cursor) :
  List.In cur' (run U ic (r1 +++ r2) cur) <->
  exists mid, List.In mid (run U ic r1 cur) /\ List.In cur' (run U ic r2 mid).
Proof. simpl. apply in_flat_map. Qed.

Lemma in_run_boundary (cur cur' : cursor) :
  List.In cur' (run U ic WordBoundary cur) <->
  cur' = cur /\ xorb (word_before U cur) (word_after U cur) = true.
Proof.
  simpl. destruct (xorb _ _); simpl; split.
  - intros [<-|[]]. split; reflexivity.
  - intros [-> _]. left. reflexivity.
  - intros [].
  - intros [_ ?]. discriminate.
Qed.

Lemma in_eat (p : codepoint -> bool) (cur cur' : cursor) :
  List.In cur' (eat p cur) <->
  exists c rest,
    after cur = c :: rest /\ p c = true /\ cur' = Cursor (c :: before cur) rest.
Proof.
  unfold eat. destruct (after cur) as [|c rest].
  - split; [intros [] | intros (? & ? & ? & _); discriminate].
  - destruct (p c) eqn:E; simpl; split.
    + intros [<-|[]]. exists c, rest. auto.
    + intros (c' & rest' & Heq & _ & ->). injection Heq as <- <-. left. reflexivity.
    + intros [].
    + intros (c' & rest' & Heq & Hp & _). injection Heq as <- <-. congruence.
Qed.

Lemma in_run_opt (r : regex) (cur cur' : cursor) :
  List.In cur' (run U ic (opt r) cur) <-> cur' = cur \/ List.In cur' (run U ic r cur).
Proof.
  simpl. rewrite !app_nil_r. simpl. split.
  - intros [<-|H]; [left; reflexivity | right; exact H].
  - intros [->|H]; [left; reflexivity | right; exact H].
Qed.
End RunFacts.

Lemma in_set_one (U : unicode) (lo hi c : codepoint) :
  in_set U false [(lo, hi)] c = in_range lo hi c.
Proof. unfold in_set. simpl. apply orb_false_r. Qed.

Lemma RST_RE_body :
  body RST_RE
  = WordBoundary +++ CharSet [(49%N, 53%N)] +++ CharSet [(49%N, 57%N)]
    +++ opt (CharSet [(49%N, 57%N)]) +++ WordBoundary.
Proof. reflexivity. Qed.

Lemma digit_is_word (U : unicode) (lo hi c : codepoint) :
  digits_are_word U -> (48 <= lo)%N -> (hi <= 57)%N ->
  in_range lo hi c = true -> is_word U c = true.
Proof.
  intros HU Hlo Hhi Hc. unfold is_word. rewrite HU; [reflexivity|].
  unfold in_range in *. apply andb_true_iff in Hc as [H1 H2].
  apply N.leb_le in H1, H2. apply andb_true_iff. split; apply N.leb_le; lia.
Qed.

(** The pattern matches somewhere exactly when the text contains a two- or
    three-digit report as a whole word. *)
Lemma search_rst_iff (U : unicode) (text : pystr) :
  digits_are_word U ->
  search U RST_RE text = true <-> contains_rst U third_1_9 text.
Proof.
  intros HU. rewrite search_iff. change (ignorecase RST_RE) with false.
  rewrite RST_RE_body. split.
  - intros (pre & post & -> & Hrun).
    apply run_nonempty in Hrun as [fin Hrun].
    apply in_run_cat in Hrun as (c0 & [-> Hb0]%in_run_boundary & Hrun).
    apply in_run_cat in Hrun as (c1 & H1 & Hrun).
    apply in_eat in H1 as (d1 & r1 & Ha1 & Hd1 & ->).
    apply in_run_cat in Hrun as (c2 & H2 & Hrun).
    apply in_eat in H2 as (d2 & r2 & Ha2 & Hd2 & ->).
    apply in_run_cat in Hrun as (c3 & H3 & [-> Hb3]%in_run_boundary).
    rewrite in_set_one in Hd1, Hd2. simpl in Ha1, Ha2 |- *. subst post r1.
    pose proof (digit_is_word U 49 53 d1 HU ltac:(lia) ltac:(lia) Hd1) as W1.
    pose proof (digit_is_word U 49 57 d2 HU ltac:(lia) ltac:(lia) Hd2) as W2.
    unfold word_before, word_after in Hb0. simpl in Hb0. rewrite W1 in Hb0.
    apply in_run_opt in H3 as [->|H3].
    + exists pre, [d1; d2], r2. split; [reflexivity|]. split; [split; assumption|].
      unfold word_before, word_after in Hb3. simpl in Hb3. rewrite W2 in Hb3.
      split.
      * destruct (List.rev pre); [exact I|]. destruct (is_word U n); [discriminate|reflexivity].
      * destruct r2; [exact I|]. destruct (is_word U n); [discriminate|reflexivity].
    + apply in_eat in H3 as (d3 & r3 & Ha3 & Hd3 & ->).
      rewrite in_set_one in Hd3. simpl in Ha3. subst r2.
      pose proof (digit_is_word U 49 57 d3 HU ltac:(lia) ltac:(lia) Hd3) as W3.
      exists pre, [d1; d2; d3], r3. split; [reflexivity|].
      split; [repeat split; assumption|].
      unfold word_before, word_after in Hb3. simpl in Hb3. rewrite W3 in Hb3.
      split.
      * destruct (List.rev pre); [exact I|]. destruct (is_word U n); [discriminate|reflexivity].
      * destruct r3; [exact I|]. destruct (is_word U n); [discriminate|reflexivity].
  - intros (pre & w & post & -> & Hw & Hpre & Hpost).
    exists pre, (w ++ post). split; [reflexivity|].
    apply run_nonempty.
    assert (Hstart : forall d rest, is_word U d = true ->
              xorb (word_before U (Cursor (List.rev pre) (d :: rest)))
                   (word_after U (Cursor (List.rev pre) (d :: rest))) = true).
    { intros d rest Wd. unfold word_before, word_after. simpl. rewrite Wd.
      destruct (List.rev pre); [reflexivity|]. rewrite Hpre. reflexivity. }
    assert (Hend : forall d b, is_word U d = true ->
              xorb (word_before U (Cursor (d :: b) post))
                   (word_after U (Cursor (d :: b) post)) = true).
    { intros d b Wd. unfold word_before, word_after. simpl. rewrite Wd.
      destruct post; [reflexivity|]. rewrite Hpost. reflexivity. }
    destruct w as [|d1 [|d2 [|d3 [|d4 w]]]]; simpl in Hw; try contradiction.
    + destruct Hw as [Hd1 Hd2].
      pose proof (digit_is_word U 49 53 d1 HU ltac:(lia) ltac:(lia) Hd1) as W1.
      pose proof (digit_is_word U 49 57 d2 HU ltac:(lia) ltac:(lia) Hd2) as W2.
      exists (Cursor (d2 :: d1 :: List.rev pre) post).
      apply in_run_cat. eexists. split; [apply in_run_boundary; split; [reflexivity|apply Hstart, W1]|].
      apply in_run_cat. eexists. split.
      { apply in_eat. exists d1, (d2 :: post). rewrite in_set_one. auto. }
      apply in_run_cat. eexists. split.
      { apply in_eat. exists d2, post. rewrite in_set_one. auto. }
      apply in_run_cat. eexists. split; [apply in_run_opt; left; reflexivity|].
      apply in_run_boundary. split; [reflexivity | apply Hend, W2].
    + destruct Hw as (Hd1 & Hd2 & Hd3). unfold third_1_9 in Hd3.
      pose proof (digit_is_word U 49 53 d1 HU ltac:(lia) ltac:(lia) Hd1) as W1.
      pose proof (digit_is_word U 49 57 d3 HU ltac:(lia) ltac:(lia) Hd3) as W3.
      exists (Cursor (d3 :: d2 :: d1 :: List.rev pre) post).
      apply in_run_cat. eexists. split; [apply in_run_boundary; split; [reflexivity|apply Hstart, W1]|].
      apply in_run_cat. eexists. split.
      { apply in_eat. exists d1, (d2 :: d3 :: post). rewrite in_set_one. auto. }
      apply in_run_cat. eexists. split.
      { apply in_eat. exists d2, (d3 :: post). rewrite in_set_one. auto. }
      apply in_run_cat. eexists. split.
      { apply in_run_opt. right. apply in_eat. exists d3, post. rewrite in_set_one. auto. }
      apply in_run_boundary. split; [reflexivity | apply Hend, W3].
Qed.

(** ** The ASCII tables meet the assumptions *)

Ltac ascii_cases :=
  unfold in_range in *;
  repeat match goal with
         | |- context [N.leb ?a ?b] => destruct (N.leb_spec a b)
         | |- context [N.eqb ?a ?b] => destruct (N.eqb_spec a b)
         | H : context [N.leb ?a ?b] |- _ => destruct (N.leb_spec a b)
         end;
  simpl in *; try discriminate; try reflexivity; try lia.

Lemma ascii_classes_disjoint : classes_disjoint ascii_db.
Proof.
  unfold classes_disjoint, ascii_db. simpl. repeat split.
  intros c. ascii_cases.
Qed.

Lemma ascii_upper_vowels : upper_vowels_alpha ascii_db.
Proof.
  intros c. unfold ascii_db, is_vowel. simpl.
  change (lit "AEIOU") with [65%N; 69%N; 73%N; 79%N; 85%N]. simpl.
  ascii_cases.
Qed.

Lemma ascii_digits_are_word : digits_are_word ascii_db.
Proof. intros c. unfold ascii_db. simpl. ascii_cases. Qed.

(** ** Splitting *)

Lemma split_from_nil (U : unicode) (text cur : pystr) :
  split_from U cur text = [] <-> cur = [] /\ List.forallb (isspace U) text = true.
Proof.
  revert cur. induction text as [|c text IH]; intros cur; simpl.
  - destruct cur; split; try tauto; try discriminate.
    intros [? _]; discriminate.
  - destruct (isspace U c); simpl.
    + destruct cur.
      * apply IH.
      * split; [discriminate | intros [? _]; discriminate].
    + rewrite IH. split; [intros [? _]; discriminate | intros [_ ?]; discriminate].
Qed.

Lemma split_nil_iff (U : unicode) (text : pystr) :
  split U text = [] <-> List.forallb (isspace U) text = true.
Proof. unfold split. rewrite split_from_nil. tauto. Qed.

(** ** The scenarios of the specification, run on the ASCII tables *)

(** Evaluate the integer under every [IZR] and the pattern searches. *)
Ltac calc :=
  repeat match goal with
         | |- context [search ?U ?p ?t] =>
             let b := eval vm_compute in (search U p t) in
             replace (search U p t) with b by (vm_compute; reflexivity)
         | |- context [IZR ?z] =>
             lazymatch z with
             | Z0 => fail
             | Zpos _ => fail
             | Zneg _ => fail
             | _ => let v := eval vm_compute in z in
                    replace z with v by (vm_compute; reflexivity)
             end
         | |- context [(?a >? ?b)%Z] =>
             let v := eval vm_compute in (a >? b)%Z in
             replace (a >? b)%Z with v by (vm_compute; reflexivity)
         end.

Example scenario_cq_call :
  let m := extract_features ascii_db (lit "CQ CQ CQ DE W1AW W1AW K") in
  m !! lit "has_cq" = Some 1 /\ m !! lit "has_de" = Some 1 /\
  m !! lit "has_callsign" = Some 1 /\ m !! lit "has_73" = Some 0.
Proof.
  intros m. unfold m.
  destruct (lookup_flags ascii_db (lit "CQ CQ CQ DE W1AW W1AW K") ltac:(discriminate))
    as (-> & _ & -> & -> & -> & _).
  calc. repeat split; reflexivity.
Qed.

Example scenario_73 :
  let m := extract_features ascii_db (lit "W1AW K3LR 73") in
  m !! lit "has_73" = Some 1 /\ m !! lit "has_callsign" = Some 1.
Proof.
  intros m. unfold m.
  destruct (lookup_flags ascii_db (lit "W1AW K3LR 73") ltac:(discriminate))
    as (-> & _ & _ & _ & -> & _).
  calc. repeat split; reflexivity.
Qed.

Example scenario_repeated_a :
  let m := extract_features ascii_db (lit "AAAAAAAAAA") in
  m !! lit "repeated_pair_ratio" = Some 1 /\ m !! lit "vowel_ratio" = Some 1 /\
  m !! lit "alpha_ratio" = Some 1.
Proof.
  intros m. unfold m.
  rewrite lookup_repeated_pair_ratio, lookup_vowel_ratio, lookup_alpha_ratio
    by discriminate.
  calc. cbv iota. repeat split; f_equal; lra.
Qed.

Example scenario_entropy_abab :
  extract_features ascii_db (lit "abab") !! lit "entropy" = Some (1 / 8).
Proof.
  rewrite lookup_entropy by discriminate. f_equal. f_equal.
  unfold shannon_entropy. simpl. unfold entropy_step.
  calc.
  assert (H : 0 < 2 / 4) by lra.
  destruct (Rlt_dec 0 (2 / 4)) as [_|Hn]; [|contradiction].
  replace (2 / 4) with (/ 2) by lra.
  unfold log2. rewrite ln_Rinv by lra. pose proof ln2_pos. field. lra.
Qed.

(** ** The properties *)

Lemma extract_empty_lookup (U : unicode) (k : pystr) :
  extract_features U [] !! k
  = (list_to_map [(lit "len", 0); (lit "alpha_ratio", 0); (lit "digit_ratio", 0);
                  (lit "space_ratio", 0); (lit "upper_ratio", 0);
                  (lit "special_ratio", 0); (lit "entropy", 0)] : gmap pystr R) !! k.
Proof.
  unfold extract_features. change (len [] =? 0)%Z with true. cbv iota zeta.
  simpl list_to_map. rewrite !lookup_insert.
  repeat case_decide; try reflexivity; subst; exfalso;
    match goal with H : _ = _ |- _ => revert H; key_ne end.
Qed.

Lemma extract_empty_values (U : unicode) (k : pystr) (v : R) :
  extract_features U [] !! k = Some v ->
  v = 0 /\
  List.In k [lit "len"; lit "alpha_ratio"; lit "digit_ratio"; lit "space_ratio";
             lit "upper_ratio"; lit "special_ratio"; lit "entropy"].
Proof.
  rewrite extract_empty_lookup. simpl list_to_map. rewrite !lookup_insert.
  repeat case_decide; subst; rewrite ?lookup_empty; intros Hv;
    try discriminate; injection Hv as <-; (split; [reflexivity|]);
    simpl; tauto.
Qed.

(** C2. For the empty string the result has exactly the keys [len],
    [alpha_ratio], [digit_ratio], [space_ratio], [upper_ratio],
    [special_ratio] and [entropy], each with value 0, and no other key. *)
Theorem extract_empty (U : unicode) :
  extract_features U []
  = list_to_map [(lit "len", 0); (lit "alpha_ratio", 0); (lit "digit_ratio", 0);
                 (lit "space_ratio", 0); (lit "upper_ratio", 0);
                 (lit "special_ratio", 0); (lit "entropy", 0)]
  /\ forall k v, extract_features U [] !! k = Some v ->
       v = 0 /\
       List.In k [lit "len"; lit "alpha_ratio"; lit "digit_ratio"; lit "space_ratio";
                  lit "upper_ratio"; lit "special_ratio"; lit "entropy"].
Proof.
  split.
  - apply map_eq. intros k. apply extract_empty_lookup.
  - intros k v. apply extract_empty_values.
Qed.

(** C8. On a non-empty string with no alphabetic character [upper_ratio]
    and [vowel_ratio] are 0; with at least one alphabetic character,
    [upper_ratio] is the number of upper-case characters over the length
    and [vowel_ratio] is the number of [A E I O U] in the upper-cased text
    over the number of alphabetic characters. *)
Theorem upper_vowel_ratio (U : unicode) (text : pystr) :
  text <> [] ->
  (count (isalpha U) text = 0%Z ->
     extract_features U text !! lit "upper_ratio" = Some 0 /\
     extract_features U text !! lit "vowel_ratio" = Some 0) /\
  ((0 < count (isalpha U) text)%Z ->
     extract_features U text !! lit "upper_ratio"
     = Some (IZR (count (isupper U) text) / IZR (len text)) /\
     extract_features U text !! lit "vowel_ratio"
     = Some (IZR (count is_vowel (str_upper U text)) / IZR (count (isalpha U) text))).
Proof.
  intros Hne. rewrite (lookup_upper_ratio U text Hne), (lookup_vowel_ratio U text Hne).
  split; intros Ha.
  - rewrite Ha. simpl. split; reflexivity.
  - apply Z.gtb_lt in Ha. rewrite Ha. split; reflexivity.
Qed.

Lemma upper_vowel_ratio_witness :
  (lit "599 -15" <> [] /\ count (isalpha ascii_db) (lit "599 -15") = 0%Z /\
   extract_features ascii_db (lit "599 -15") !! lit "upper_ratio" = Some 0 /\
   extract_features ascii_db (lit "599 -15") !! lit "vowel_ratio" = Some 0) /\
  (lit "W1AW de K3LR" <> [] /\ (0 < count (isalpha ascii_db) (lit "W1AW de K3LR"))%Z /\
   extract_features ascii_db (lit "W1AW de K3LR") !! lit "upper_ratio"
   = Some (IZR (count (isupper ascii_db) (lit "W1AW de K3LR"))
           / IZR (len (lit "W1AW de K3LR"))) /\
   extract_features ascii_db (lit "W1AW de K3LR") !! lit "vowel_ratio"
   = Some (IZR (count is_vowel (str_upper ascii_db (lit "W1AW de K3LR")))
           / IZR (count (isalpha ascii_db) (lit "W1AW de K3LR")))).
Proof.
  split.
  - split; [discriminate|]. split; [reflexivity|].
    apply (upper_vowel_ratio ascii_db (lit "599 -15")); [discriminate | reflexivity].
  - split; [discriminate|]. split; [reflexivity|].
    apply (upper_vowel_ratio ascii_db (lit "W1AW de K3LR")); [discriminate | reflexivity].
Defined.

(** C9. On a non-empty string that splits into no word, that is, one made
    of whitespace only, [max_word_len] is [min(length/20, 1)],
    [avg_word_len] is [min(length/10, 1)] and [word_count] is 0, where
    [length] counts the characters of the whole input. *)
Theorem whitespace_only_words (U : unicode) (text : pystr) :
  text <> [] -> split U text = [] ->
  List.forallb (isspace U) text = true /\
  extract_features U text !! lit "max_word_len" = Some (Rmin (IZR (len text) / 20) 1) /\
  extract_features U text !! lit "avg_word_len" = Some (Rmin (IZR (len text) / 10) 1) /\
  extract_features U text !! lit "word_count" = Some 0.
Proof.
  intros Hne Hw. split; [apply split_nil_iff, Hw|].
  apply lookup_words_none; assumption.
Qed.

Lemma whitespace_only_words_witness :
  lit "   " <> [] /\ split ascii_db (lit "   ") = [] /\
  List.forallb (isspace ascii_db) (lit "   ") = true /\
  extract_features ascii_db (lit "   ") !! lit "max_word_len"
  = Some (Rmin (IZR (len (lit "   ")) / 20) 1) /\
  extract_features ascii_db (lit "   ") !! lit "avg_word_len"
  = Some (Rmin (IZR (len (lit "   ")) / 10) 1) /\
  extract_features ascii_db (lit "   ") !! lit "word_count" = Some 0.
Proof.
  split; [discriminate|]. split; [reflexivity|].
  apply (whitespace_only_words ascii_db (lit "   ")); [discriminate | reflexivity].
Defined.

(** C10. On a non-empty string the four class ratios add up to 1 (under
    exact arithmetic): [special_count] is the length minus the other three
    counts. *)
Theorem class_ratios_sum (U : unicode) (text : pystr) :
  text <> [] ->
  exists alpha digit space special : R,
    extract_features U text !! lit "alpha_ratio" = Some alpha /\
    extract_features U text !! lit "digit_ratio" = Some digit /\
    extract_features U text !! lit "space_ratio" = Some space /\
    extract_features U text !! lit "special_ratio" = Some special /\
    alpha + digit + space + special = 1.
Proof.
  intros Hne.
  rewrite (lookup_alpha_ratio U text Hne), (lookup_digit_ratio U text Hne),
    (lookup_space_ratio U text Hne), (lookup_special_ratio U text Hne).
  do 4 eexists. repeat (split; [reflexivity|]).
  pose proof (len_pos text Hne) as Hlen. apply IZR_lt in Hlen.
  rewrite !minus_IZR. field. lra.
Qed.

Lemma class_ratios_sum_witness :
  lit "W1AW K3LR -15" <> [] /\
  exists alpha digit space special : R,
    extract_features ascii_db (lit "W1AW K3LR -15") !! lit "alpha_ratio" = Some alpha /\
    extract_features ascii_db (lit "W1AW K3LR -15") !! lit "digit_ratio" = Some digit /\
    extract_features ascii_db (lit "W1AW K3LR -15") !! lit "space_ratio" = Some space /\
    extract_features ascii_db (lit "W1AW K3LR -15") !! lit "special_ratio" = Some special /\
    alpha + digit + space + special = 1.
Proof.
  split; [discriminate|].
  apply (class_ratios_sum ascii_db (lit "W1AW K3LR -15")). discriminate.
Defined.

(** ** Bounds *)

Lemma count_adjacent_bound (text : pystr) :
  (1 < len text)%Z ->
  (0 <= count (fun i => N.eqb (nth i text 0%N) (nth (i + 1) text 0%N))
              (seq 0 (Z.to_nat (len text - 1)))
     <= len text - 1)%Z.
Proof.
  intros Hl.
  pose proof (count_bounds (fun i => N.eqb (nth i text 0%N) (nth (i + 1) text 0%N))
                (seq 0 (Z.to_nat (len text - 1)))) as H.
  rewrite length_seq in H. lia.
Qed.

Lemma special_count_bounds (U : unicode) (text : pystr) :
  classes_disjoint U ->
  (0 <= len text - count (isalpha U) text - count (isdigit U) text
        - count (fun c => N.eqb c 32) text <= len text)%Z.
Proof.
  intros (Had & Hsa & Hsd).
  pose proof (count_disjoint3 (isalpha U) (isdigit U) (fun c => N.eqb c 32) text Had) as H.
  pose proof (count_bounds (isalpha U) text).
  pose proof (count_bounds (isdigit U) text).
  pose proof (count_bounds (fun c => N.eqb c 32) text).
  unfold len. 
  assert (count (isalpha U) text + count (isdigit U) text
          + count (fun c => N.eqb c 32) text <= Z.of_nat (List.length text))%Z; [|lia].
  apply H. intros x Hx. apply N.eqb_eq in Hx. subst x. split; assumption.
Qed.

Lemma words_bounds (words : list pystr) (w : pystr) (ws : list pystr) :
  words = w :: ws ->
  (0 <= max_list (List.map len words))%Z /\
  (0 <= sum_list (List.map len words))%Z /\
  (0 < Z.of_nat (List.length (List.map len words)))%Z.
Proof.
  intros ->. split; [|split].
  - simpl. pose proof (fold_max_ge (List.map len ws) (len w)).
    pose proof (len_nonneg w). lia.
  - unfold sum_list. apply fold_add_nonneg, lens_nonneg.
  - simpl List.length. lia.
Qed.

Lemma scalar_bounds (U : unicode) (text : pystr) (k : pystr) (v : R) :
  classes_disjoint U -> upper_vowels_alpha U -> text <> [] ->
  List.In k [lit "len"; lit "alpha_ratio"; lit "digit_ratio"; lit "space_ratio";
             lit "upper_ratio"; lit "special_ratio"; lit "max_word_len";
             lit "avg_word_len"; lit "word_count"; lit "vowel_ratio";
             lit "repeated_pair_ratio"] ->
  extract_features U text !! k = Some v -> 0 <= v <= 1.
Proof.
  intros Hd Hv Hne Hin Hl.
  pose proof (len_pos text Hne) as Hlen.
  pose proof (count_bounds (isalpha U) text) as Ba.
  pose proof (count_bounds (isdigit U) text) as Bd.
  pose proof (count_bounds (fun c => N.eqb c 32) text) as Bs.
  pose proof (count_bounds (isupper U) text) as Bu.
  fold (len text) in Ba, Bd, Bs, Bu.
  assert (Hwords :
    (forall x, extract_features U text !! lit "max_word_len" = Some x -> 0 <= x <= 1) /\
    (forall x, extract_features U text !! lit "avg_word_len" = Some x -> 0 <= x <= 1) /\
    (forall x, extract_features U text !! lit "word_count" = Some x -> 0 <= x <= 1)).
  { destruct (split U text) as [|w ws] eqn:Hw.
    - destruct (lookup_words_none U text Hne Hw) as (-> & -> & ->).
      split; [|split]; intros x Hx; injection Hx as <-; try lra;
        apply clip_bounds; apply Rmult_le_pos; try lra; apply IZR_le; lia.
    - destruct (lookup_words_some U text w ws Hne Hw) as (-> & -> & ->).
      destruct (words_bounds (w :: ws) w ws eq_refl) as (Bm & Bsum & Bn).
      apply IZR_le in Bm, Bsum. apply IZR_lt in Bn.
      split; [|split]; intros x Hx; injection Hx as <-; apply clip_bounds.
      + apply Rmult_le_pos; [exact Bm | lra].
      + apply Rmult_le_pos; [|lra]. apply Rmult_le_pos; [exact Bsum|].
        left. apply Rinv_0_lt_compat. exact Bn.
      + apply Rmult_le_pos; [|lra]. apply IZR_le. lia. }
  destruct Hwords as (Hmax & Havg & Hcnt).
  simpl in Hin.
  destruct Hin as [<-|[<-|[<-|[<-|[<-|[<-|[<-|[<-|[<-|[<-|[<-|[]]]]]]]]]]]].
  - rewrite (lookup_len U text Hne) in Hl. injection Hl as <-.
    apply clip_bounds. apply Rmult_le_pos; [apply IZR_le; lia | lra].
  - rewrite (lookup_alpha_ratio U text Hne) in Hl. injection Hl as <-.
    apply ratio_bounds; lia.
  - rewrite (lookup_digit_ratio U text Hne) in Hl. injection Hl as <-.
    apply ratio_bounds; lia.
  - rewrite (lookup_space_ratio U text Hne) in Hl. injection Hl as <-.
    apply ratio_bounds; lia.
  - rewrite (lookup_upper_ratio U text Hne) in Hl. injection Hl as <-.
    destruct (_ >? _)%Z; [apply ratio_bounds; lia | lra].
  - rewrite (lookup_special_ratio U text Hne) in Hl. injection Hl as <-.
    apply ratio_bounds; [apply special_count_bounds, Hd | lia].
  - apply Hmax, Hl.
  - apply Havg, Hl.
  - apply Hcnt, Hl.
  - rewrite (lookup_vowel_ratio U text Hne) in Hl. injection Hl as <-.
    destruct (_ >? _)%Z eqn:Ea; [|lra]. apply Z.gtb_lt in Ea.
    apply ratio_bounds; [|lia]. split; [apply count_bounds|].
    unfold str_upper. apply count_flat_map_le, Hv.
  - rewrite (lookup_repeated_pair_ratio U text Hne) in Hl. injection Hl as <-.
    destruct (_ >? _)%Z eqn:El; [|lra]. apply Z.gtb_lt in El.
    apply ratio_bounds; [apply count_adjacent_bound; lia | lia].
Qed.

(** C3 (as amended). Every ratio-type feature of the result lies in
    [[0,1]]; the entropy feature, which is not clipped, is never negative;
    every n-gram counter is a non-negative integer. *)
Theorem feature_bounds (U : unicode) (text : pystr) :
  classes_disjoint U -> upper_vowels_alpha U ->
  (forall k v,
     List.In k [lit "len"; lit "alpha_ratio"; lit "digit_ratio"; lit "space_ratio";
                lit "upper_ratio"; lit "special_ratio"; lit "max_word_len";
                lit "avg_word_len"; lit "word_count"; lit "vowel_ratio";
                lit "repeated_pair_ratio"] ->
     extract_features U text !! k = Some v -> 0 <= v <= 1) /\
  (forall v, extract_features U text !! lit "entropy" = Some v -> 0 <= v) /\
  (forall k v,
     ngram_key k -> extract_features U text !! k = Some v ->
     exists n : Z, (0 <= n)%Z /\ v = IZR n).
Proof.
  intros Hd Hv. split; [|split].
  - intros k v Hin Hl. destruct text as [|c text].
    + destruct (extract_empty_values U k v Hl) as [-> _]. lra.
    + apply (scalar_bounds U (c :: text) k v Hd Hv); [discriminate | exact Hin | exact Hl].
  - intros v Hl. destruct text as [|c text].
    + destruct (extract_empty_values U _ v Hl) as [-> _]. lra.
    + rewrite lookup_entropy in Hl by discriminate.
      assert (v = shannon_entropy (c :: text) / 8) as -> by congruence.
      pose proof (shannon_entropy_nonneg (c :: text)). lra.
  - intros k v Hk Hl. exact (extract_counters U text k v Hk Hl).
Qed.

Lemma feature_bounds_witness :
  classes_disjoint ascii_db /\ upper_vowels_alpha ascii_db /\
  (forall k v,
     List.In k [lit "len"; lit "alpha_ratio"; lit "digit_ratio"; lit "space_ratio";
                lit "upper_ratio"; lit "special_ratio"; lit "max_word_len";
                lit "avg_word_len"; lit "word_count"; lit "vowel_ratio";
                lit "repeated_pair_ratio"] ->
     extract_features ascii_db (lit "CQ CQ CQ DE W1AW K") !! k = Some v -> 0 <= v <= 1) /\
  (forall v,
     extract_features ascii_db (lit "CQ CQ CQ DE W1AW K") !! lit "entropy" = Some v ->
     0 <= v) /\
  (forall k v,
     ngram_key k -> extract_features ascii_db (lit "CQ CQ CQ DE W1AW K") !! k = Some v ->
     exists n : Z, (0 <= n)%Z /\ v = IZR n).
Proof.
  split; [exact ascii_classes_disjoint|]. split; [exact ascii_upper_vowels|].
  exact (feature_bounds ascii_db (lit "CQ CQ CQ DE W1AW K")
           ascii_classes_disjoint ascii_upper_vowels).
Defined.

(** C3, refuted as stated: on the 257 code points 0 to 256 the entropy is
    [log2 257] bits, and the entropy feature, an eighth of it, exceeds 1. *)
Lemma entropy_feature_exceeds_one :
  exists v, extract_features ascii_db text257 !! lit "entropy" = Some v /\ 1 < v.
Proof.
  exists (log2 257 / 8). split.
  - rewrite lookup_entropy by discriminate. rewrite text257_entropy. reflexivity.
  - pose proof log2_257_gt_8. lra.
Qed.

(** ** The signal-report flag *)

(** C5 (as amended). On a non-empty string [has_rst] is 1 exactly when the
    text contains, as a whole word, a digit sequence whose first digit is in
    1-5, whose second digit is in 1-9 and whose optional third digit is in
    1-9; otherwise it is 0. *)
Theorem has_rst_language (U : unicode) (text : pystr) :
  digits_are_word U -> text <> [] ->
  (contains_rst U third_1_9 text ->
     extract_features U text !! lit "has_rst" = Some 1) /\
  (~ contains_rst U third_1_9 text ->
     extract_features U text !! lit "has_rst" = Some 0).
Proof.
  intros HU Hne. rewrite (lookup_has_rst U text Hne).
  pose proof (search_rst_iff U text HU) as Hiff.
  destruct (search U RST_RE text); simpl; split; intros H.
  - reflexivity.
  - exfalso. apply H, Hiff. reflexivity.
  - apply Hiff in H. discriminate.
  - reflexivity.
Qed.

Lemma has_rst_language_witness :
  digits_are_word ascii_db /\ lit "RST 59" <> [] /\
  contains_rst ascii_db third_1_9 (lit "RST 59") /\
  extract_features ascii_db (lit "RST 59") !! lit "has_rst" = Some 1.
Proof.
  assert (Hc : contains_rst ascii_db third_1_9 (lit "RST 59")).
  { exists (lit "RST "), (lit "59"), []. repeat split; reflexivity. }
  split; [exact ascii_digits_are_word|]. split; [discriminate|]. split; [exact Hc|].
  apply (has_rst_language ascii_db (lit "RST 59") ascii_digits_are_word);
    [discriminate | exact Hc].
Defined.

(** C5, refuted as stated: in ["555"] the third digit is a 5, which the
    class of the specification excludes, and the flag is 1. *)
Lemma has_rst_555 :
  extract_features ascii_db (lit "555") !! lit "has_rst" = Some 1 /\
  ~ contains_rst ascii_db third_1_or_7_9 (lit "555").
Proof.
  split.
  - rewrite lookup_has_rst by discriminate.
    replace (search ascii_db RST_RE (lit "555")) with true by (vm_compute; reflexivity).
    reflexivity.
  - intros (pre & w & post & Heq & Hd & Hpre & Hpost).
    change (lit "555") with [53%N; 53%N; 53%N] in Heq.
    assert (Hlen : (List.length pre + (List.length w + List.length post) = 3)%nat).
    { rewrite <- !List.length_app, <- Heq. reflexivity. }
    destruct w as [|d1 [|d2 [|d3 [|d4 w]]]]; simpl in Hd; try contradiction.
    + destruct pre as [|p0 [|p1 pre]]; simpl in Heq, Hlen; [| |lia].
      * injection Heq as <- <- <-. vm_compute in Hpost. discriminate Hpost.
      * injection Heq as <- <- <- <-. vm_compute in Hpre. discriminate Hpre.
    + destruct Hd as (_ & _ & Hd3).
      destruct pre as [|p0 pre]; simpl in Heq, Hlen; [|lia].
      injection Heq as <- <- <- <-. vm_compute in Hd3. discriminate Hd3.
Qed.

End ExtractFacts.

(* ===================================================================== *)
(** * Facts about the feature dicts as objects *)
(* ===================================================================== *)

Module DeterminismFacts.
Import Py Re TrainModel.
Local Open Scope R_scope.

(** ** Running code on a store *)

Lemma run_bind {A B} (c : TrainRun.py A) (k : A -> TrainRun.py B) (h h' : TrainRun.store)
    (x : A) :
  c h = (x, h') -> TrainRun.bind c k h = k x h'.
Proof. intros H. unfold TrainRun.bind. rewrite H. reflexivity. Qed.

Lemma run_setitem (d : nat) (key : pystr) (value : R) (m : gmap pystr R)
    (h : TrainRun.store) :
  TrainRun.setitem d key value (<[d := m]> h) = (tt, <[d := <[key := value]> m]> h).
Proof.
  unfold TrainRun.setitem, TrainRun.contents.
  rewrite lookup_insert_eq. simpl. rewrite insert_insert_eq. reflexivity.
Qed.

Lemma run_get (d : nat) (key : pystr) (dflt : R) (m : gmap pystr R)
    (h : TrainRun.store) :
  TrainRun.get d key dflt (<[d := m]> h) = (default dflt (m !! key), <[d := m]> h).
Proof.
  unfold TrainRun.get, TrainRun.contents. rewrite lookup_insert_eq. reflexivity.
Qed.

Section Run.
Context (U : unicode).

(** A window loop writes to the dict it is given what the loop of
    [TrainModel] computes from the contents of that dict. *)
Lemma run_count_ngrams (d : nat) (prefix : pystr) (n : nat) (upper_text : pystr)
    (m : gmap pystr R) (h : TrainRun.store) :
  TrainRun.count_ngrams U d prefix n upper_text (<[d := m]> h)
  = (tt, <[d := count_ngrams U prefix n upper_text m]> h).
Proof.
  unfold TrainRun.count_ngrams, count_ngrams.
  generalize (seq 0 (List.length upper_text - (n - 1))) as idx. intros idx.
  revert m. induction idx as [|i idx IH]; intros m; [reflexivity|].
  simpl TrainRun.for_. simpl List.fold_left.
  destruct (List.forallb _ (slice i (i + n) upper_text)).
  - erewrite run_bind; [apply IH|].
    erewrite run_bind by apply run_get. apply run_setitem.
  - erewrite run_bind by reflexivity. apply IH.
Qed.

Ltac step :=
  first
    [ erewrite run_bind by apply run_setitem
    | erewrite run_bind by apply run_count_ngrams ];
  cbv beta.

(** A call creates a dict, under an identity that is new, fills it with the
    features of the text, and leaves the store as it was everywhere else. *)
Lemma run_extract_features (text : pystr) (h : TrainRun.store) :
  TrainRun.extract_features U text h
  = (fresh (dom h), <[fresh (dom h) := TrainModel.extract_features U text]> h).
Proof.
  unfold TrainRun.extract_features, TrainModel.extract_features.
  erewrite run_bind by reflexivity. cbv zeta beta.
  destruct (len text =? 0)%Z.
  - repeat step. reflexivity.
  - do 9 step.
    destruct (split U text) as [|w ws].
    + erewrite run_bind;
        [| repeat step; apply run_setitem ].
      cbv beta. step.
      destruct (len text >? 1)%Z.
      * repeat step. reflexivity.
      * repeat step. reflexivity.
    + erewrite run_bind;
        [| repeat step; apply run_setitem ].
      cbv beta. step.
      destruct (len text >? 1)%Z.
      * repeat step. reflexivity.
      * repeat step. reflexivity.
Qed.

(** The dicts of a table: one new dict per row, no two the same, each
    holding the features of the text of its row, and every dict that existed
    before left as it was. *)
Lemma run_extract_rows (texts : list pystr) (h : TrainRun.store) :
  let r := TrainRun.extract_rows U texts h in
  List.NoDup (fst r) /\
  (forall d, List.In d (fst r) -> d ∉ dom h) /\
  (forall d, d ∈ dom h -> snd r !! d = h !! d) /\
  (forall i t, nth_error texts i = Some t ->
     exists d, nth_error (fst r) i = Some d /\
               snd r !! d = Some (TrainModel.extract_features U t)).
Proof.
  revert h. induction texts as [|t texts IH]; intros h.
  - simpl. split; [constructor|]. split; [intros d []|]. split; [reflexivity|].
    intros [|i] t' H; discriminate H.
  - simpl TrainRun.extract_rows.
    erewrite run_bind by apply run_extract_features.
    set (d0 := fresh (dom h)).
    set (h0 := <[d0 := TrainModel.extract_features U t]> h).
    specialize (IH h0). cbv zeta in IH.
    destruct (TrainRun.extract_rows U texts h0) as [ds h1] eqn:Erun.
    simpl in IH. destruct IH as (Hnd & Hnew & Hkept & Hrows).
    unfold TrainRun.bind, TrainRun.ret. rewrite Erun. simpl.
    assert (Hfresh : d0 ∉ dom h) by apply is_fresh.
    assert (Hd0 : d0 ∈ dom h0).
    { unfold h0. rewrite dom_insert. apply elem_of_union_l, elem_of_singleton. reflexivity. }
    assert (Hsub : forall d, d ∈ dom h -> d ∈ dom h0).
    { intros d Hd. unfold h0. rewrite dom_insert. apply elem_of_union_r, Hd. }
    split; [|split; [|split]].
    + constructor; [|exact Hnd]. intros Hin. apply (Hnew d0 Hin), Hd0.
    + intros d [<-|Hin]; [exact Hfresh|]. intros Hd. apply (Hnew d Hin), Hsub, Hd.
    + intros d Hd. rewrite (Hkept d (Hsub d Hd)). unfold h0.
      apply lookup_insert_ne. intros <-. contradiction.
    + intros [|i] t' Ht; simpl in Ht.
      * injection Ht as <-. exists d0. split; [reflexivity|].
        rewrite (Hkept d0 Hd0). unfold h0. apply lookup_insert_eq.
      * apply Hrows, Ht.
Qed.
End Run.

(** C1. Feature extraction depends on the text alone. Whatever dicts exist
    when the tables are read, whatever the table, the position in it and the
    label of the sample, the call for a row returns a dict that did not exist
    before; two rows with the same text get dicts with the same keys and the
    same value at every key, the features of that text; the dicts of two
    rows of one table are two objects; and no dict that existed before is
    written. *)
Theorem extract_deterministic (U : unicode) (table1 table2 : list (pystr * Z))
    (h1 h2 : TrainRun.store) (i j : nat) (s : pystr) (label1 label2 : Z) :
  nth_error table1 i = Some (s, label1) ->
  nth_error table2 j = Some (s, label2) ->
  let run1 := TrainRun.extract_table U table1 h1 in
  let run2 := TrainRun.extract_table U table2 h2 in
  exists (d1 d2 : nat) (m1 m2 : gmap pystr R),
    nth_error (fst run1) i = Some d1 /\ snd run1 !! d1 = Some m1 /\
    nth_error (fst run2) j = Some d2 /\ snd run2 !! d2 = Some m2 /\
    dom m1 = dom m2 /\ (forall k, m1 !! k = m2 !! k) /\
    m1 = TrainModel.extract_features U s /\
    (d1 ∉ dom h1) /\ (d2 ∉ dom h2) /\
    List.NoDup (fst run1) /\ List.NoDup (fst run2) /\
    (forall d, d ∈ dom h1 -> snd run1 !! d = h1 !! d) /\
    (forall d, d ∈ dom h2 -> snd run2 !! d = h2 !! d).
Proof.
  intros H1 H2 run1 run2.
  destruct (run_extract_rows U (List.map fst table1) h1) as (Hnd1 & Hnew1 & Hkept1 & Hrows1).
  destruct (run_extract_rows U (List.map fst table2) h2) as (Hnd2 & Hnew2 & Hkept2 & Hrows2).
  destruct (Hrows1 i s) as (d1 & Hd1 & Hm1).
  { rewrite nth_error_map, H1. reflexivity. }
  destruct (Hrows2 j s) as (d2 & Hd2 & Hm2).
  { rewrite nth_error_map, H2. reflexivity. }
  exists d1, d2, (TrainModel.extract_features U s), (TrainModel.extract_features U s).
  split; [exact Hd1|]. split; [exact Hm1|]. split; [exact Hd2|]. split; [exact Hm2|].
  split; [reflexivity|]. split; [reflexivity|]. split; [reflexivity|].
  split; [apply Hnew1, (nth_error_In _ _ Hd1)|].
  split; [apply Hnew2, (nth_error_In _ _ Hd2)|].
  split; [exact Hnd1|]. split; [exact Hnd2|]. split; [exact Hkept1 | exact Hkept2].
Qed.

Lemma extract_deterministic_witness :
  nth_error [(lit "CQ W1AW FN31", 1%Z)] 0 = Some (lit "CQ W1AW FN31", 1%Z) /\
  nth_error [(lit "x", 0%Z); (lit "CQ W1AW FN31", 0%Z)] 1 = Some (lit "CQ W1AW FN31", 0%Z) /\
  let run1 := TrainRun.extract_table ascii_db [(lit "CQ W1AW FN31", 1%Z)] ∅ in
  let run2 := TrainRun.extract_table ascii_db
                [(lit "x", 0%Z); (lit "CQ W1AW FN31", 0%Z)] TrainRun.used_store in
  exists (d1 d2 : nat) (m1 m2 : gmap pystr R),
    nth_error (fst run1) 0 = Some d1 /\ snd run1 !! d1 = Some m1 /\
    nth_error (fst run2) 1 = Some d2 /\ snd run2 !! d2 = Some m2 /\
    dom m1 = dom m2 /\ (forall k, m1 !! k = m2 !! k) /\
    m1 = TrainModel.extract_features ascii_db (lit "CQ W1AW FN31") /\
    (d1 ∉ dom (∅ : TrainRun.store)) /\ (d2 ∉ dom TrainRun.used_store) /\
    List.NoDup (fst run1) /\ List.NoDup (fst run2) /\
    (forall d, d ∈ dom (∅ : TrainRun.store) -> snd run1 !! d = (∅ : TrainRun.store) !! d) /\
    (forall d, d ∈ dom TrainRun.used_store -> snd run2 !! d = TrainRun.used_store !! d).
Proof.
  split; [reflexivity|]. split; [reflexivity|].
  apply (extract_deterministic ascii_db
           [(lit "CQ W1AW FN31", 1%Z)] [(lit "x", 0%Z); (lit "CQ W1AW FN31", 0%Z)]
           ∅ TrainRun.used_store 0 1 (lit "CQ W1AW FN31") 1 0); reflexivity.
Defined.
End DeterminismFacts.

(* ===================================================================== *)
(** * Properties of the dataset generator *)
(* ===================================================================== *)

Module GenerateFacts.
Import Py GenerateData.
Local Open Scope gen_scope.

(** ** Computations that return *)

Section Returns.
Context {rng : Type}.

Lemma returns_ret {A} (P : A -> Prop) (x : A) : P x -> returns (rng := rng) P (ret x).
Proof. intros H g. exists x, g. split; [reflexivity | exact H]. Qed.

Lemma returns_bind {A B} (P : A -> Prop) (Q : B -> Prop)
    (c : gen rng A) (k : A -> gen rng B) :
  returns P c -> (forall x, P x -> returns Q (k x)) -> returns Q (x <- c ;; k x).
Proof.
  intros Hc Hk g. destruct (Hc g) as (x & g1 & Hx & HP).
  destruct (Hk x HP g1) as (y & g2 & Hy & HQ).
  exists y, g2. split; [|exact HQ]. unfold bind. rewrite Hx. exact Hy.
Qed.

Lemma returns_weaken {A} (P Q : A -> Prop) (c : gen rng A) :
  returns P c -> (forall x, P x -> Q x) -> returns Q c.
Proof.
  intros Hc HPQ g. destruct (Hc g) as (x & g1 & Hx & HP).
  exists x, g1. split; [exact Hx | apply HPQ, HP].
Qed.

Lemma returns_total {A} (f : rng -> A * rng) : returns (fun _ => True) (total f).
Proof.
  intros g. exists (fst (f g)), (snd (f g)). split; [|exact I].
  unfold total. destruct (f g). reflexivity.
Qed.

Lemma returns_raise_if_none {A} (P : A -> Prop) (o : option A) (x : A) :
  o = Some x -> P x -> returns (rng := rng) P (raise_if_none o).
Proof. intros -> H g. exists x, g. split; [reflexivity | exact H]. Qed.

Lemma returns_for_range {S} (Inv : S -> Prop) (n : nat) (body : S -> gen rng S)
    (state : S) :
  Inv state -> (forall s, Inv s -> returns Inv (body s)) ->
  returns Inv (for_range n body state).
Proof.
  intros H0 Hbody. revert state H0.
  induction n as [|n IH]; intros state H0; simpl.
  - apply returns_ret, H0.
  - eapply returns_bind; [apply Hbody, H0|]. intros s Hs. apply IH, Hs.
Qed.

Lemma returns_for_each {A S} (Inv : S -> Prop) (Q : A -> Prop) (xs : list A)
    (body : A -> S -> gen rng S) (state : S) :
  List.Forall Q xs -> Inv state ->
  (forall x s, Q x -> Inv s -> returns Inv (body x s)) ->
  returns Inv (for_each xs body state).
Proof.
  intros Hxs H0 Hbody. revert state H0.
  induction Hxs as [|x xs Hx _ IH]; intros state H0; simpl.
  - apply returns_ret, H0.
  - eapply returns_bind; [apply Hbody; [exact Hx | exact H0]|].
    intros s Hs. apply IH, Hs.
Qed.

(** [random.choice(generators)()] *)
Lemma returns_choose_call {A} (Rnd : random_module rng) (P : A -> Prop)
    (generators : list (gen rng A)) :
  random_ok Rnd -> generators <> [] -> List.Forall (returns P) generators ->
  returns P (generator <- choice Rnd generators ;; generator).
Proof.
  intros Hok Hne Hall. eapply returns_bind.
  - intros g. destruct (choice_ok Rnd Hok _ generators g Hne) as (c & g' & Hc & Hin).
    exists c, g'. split; [exact Hc | exact Hin].
  - intros c Hin. simpl in Hin. rewrite List.Forall_forall in Hall. apply Hall, Hin.
Qed.
End Returns.

(** ** The primitives of [random] return *)

Section Primitives.
Context {rng : Type} (Rnd : random_module rng) (Hok : random_ok Rnd).

Lemma returns_random : returns (fun _ => True) (random_ Rnd).
Proof. apply returns_total. Qed.

Lemma returns_uniform (a b : Q) :
  (a <= b)%Q -> returns (fun x => (a <= x <= b)%Q) (uniform_ Rnd a b).
Proof.
  intros Hab g. exists (fst (uniform Rnd a b g)), (snd (uniform Rnd a b g)).
  split; [|apply (uniform_ok Rnd Hok), Hab].
  unfold uniform_, total. destruct (uniform Rnd a b g). reflexivity.
Qed.

Lemma returns_randint (a b : Z) :
  (a <= b)%Z -> returns (fun n => a <= n <= b)%Z (randint Rnd a b).
Proof. intros Hab g. apply (randint_ok Rnd Hok), Hab. Qed.

Lemma returns_choice {A} (xs : list A) :
  xs <> [] -> returns (fun x => List.In x xs) (choice Rnd xs).
Proof. intros Hne g. apply (choice_ok Rnd Hok), Hne. Qed.

Lemma returns_choices {A} (xs : list A) (k : Z) :
  xs <> [] -> (0 <= k)%Z ->
  returns (fun ys => Z.of_nat (List.length ys) = k /\ List.Forall (fun y => List.In y xs) ys)
          (choices Rnd xs k).
Proof. intros Hne Hk g. apply (choices_ok Rnd Hok); assumption. Qed.

Lemma returns_sample {A} (xs : list A) (k : Z) :
  (0 <= k <= Z.of_nat (List.length xs))%Z ->
  returns (fun ys => Z.of_nat (List.length ys) = k /\ List.Forall (fun y => List.In y xs) ys)
          (sample Rnd xs k).
Proof. intros Hk g. apply (sample_ok Rnd Hok), Hk. Qed.

Lemma returns_choice_char (s : pystr) :
  s <> [] -> returns (fun x => exists c, x = [c]) (choice_char Rnd s).
Proof.
  intros Hne. unfold choice_char. eapply returns_bind; [apply returns_choice, Hne|].
  intros c _. apply returns_ret. exists c. reflexivity.
Qed.

Lemma returns_append_if (p : Q) (parts : list pystr) (part : gen rng pystr) :
  returns (fun _ => True) part -> returns (fun _ => True) (append_if Rnd p parts part).
Proof.
  intros Hpart. unfold append_if. eapply returns_bind; [apply returns_random|].
  intros r _. destruct (Qlt_bool r p).
  - eapply returns_bind; [exact Hpart|]. intros x _. apply returns_ret. exact I.
  - apply returns_ret. exact I.
Qed.
End Primitives.

(** ** Lists and numbers of the generators *)

Lemma list_assign_some {A} (xs : list A) (i : Z) (x : A) :
  (0 <= i < Z.of_nat (List.length xs))%Z ->
  exists ys, list_assign xs i x = Some ys /\ List.length ys = List.length xs.
Proof.
  intros [H0 H1]. unfold list_assign.
  apply Z.leb_le in H0. apply Z.ltb_lt in H1. rewrite H0, H1. simpl.
  eexists. split; [reflexivity|]. apply length_insert.
Qed.

Lemma str_mul_len (c : codepoint) (n : Z) :
  (0 <= n)%Z -> len (str_mul [c] n) = n.
Proof.
  intros Hn. unfold str_mul, len.
  assert (H : forall k, List.length (List.concat (List.repeat [c] k)) = k).
  { induction k as [|k IH]; simpl; [reflexivity | rewrite IH; reflexivity]. }
  rewrite H. lia.
Qed.

Lemma range_length (n : Z) : (0 <= n)%Z -> Z.of_nat (List.length (range n)) = n.
Proof. intros Hn. unfold range. rewrite List.length_map, length_seq. lia. Qed.

Lemma in_range_bounds (n i : Z) : List.In i (range n) -> (0 <= i < n)%Z.
Proof.
  unfold range. intros [k [<- Hk]]%in_map_iff. apply in_seq in Hk. lia.
Qed.

Lemma int_of_float_nonneg (x : Q) : (0 <= x)%Q -> (0 <= int_of_float x)%Z.
Proof.
  intros Hx. unfold int_of_float.
  assert (Hb : Qle_bool 0 x = true) by (apply Qle_bool_iff; exact Hx).
  rewrite Hb. change 0%Z with (Qfloor 0). apply Qfloor_resp_le, Hx.
Qed.

Lemma lit_String (a : ascii) (s : string) : lit (String a s) = N_of_ascii a :: lit s.
Proof. reflexivity. Qed.

Lemma string_of_uint_chars (d : Decimal.uint) :
  List.Forall decimal_char (lit (NilEmpty.string_of_uint d)).
Proof.
  induction d; simpl NilEmpty.string_of_uint; [constructor| ..];
    rewrite lit_String; constructor; try assumption;
    unfold decimal_char; right; cbn; lia.
Qed.

Lemma str_of_int_chars (z : Z) : List.Forall decimal_char (str_of_int z).
Proof.
  assert (H : forall d, List.Forall decimal_char (lit (NilZero.string_of_uint d))).
  { intros d. destruct d; try apply string_of_uint_chars.
    constructor; [|constructor]. right. cbn. lia. }
  unfold str_of_int, NilZero.string_of_int.
  destruct (Z.to_int z) as [d|d]; [apply H|].
  rewrite lit_String. constructor; [left; reflexivity | apply H].
Qed.

Lemma str_of_int_newline_free (z : Z) : newline_free (str_of_int z).
Proof.
  pose proof (str_of_int_chars z) as H. rewrite List.Forall_forall in H.
  split; intros Hin; apply H in Hin; destruct Hin as [?|[? ?]]; try discriminate; lia.
Qed.

Lemma replace_spec (old new : codepoint) (text : pystr) :
  List.length (replace old new text) = List.length text /\
  (forall j c, nth_error text j = Some c ->
     nth_error (replace old new text) j = Some (if N.eqb c old then new else c)) /\
  (new <> old -> ~ List.In old (replace old new text)).
Proof.
  unfold replace. split; [apply List.length_map|]. split.
  - intros j c H.
    apply (map_nth_error (fun c => if N.eqb c old then new else c) _ _ H).
  - intros Hne [c [Hc _]]%in_map_iff.
    destruct (N.eqb_spec c old); congruence.
Qed.

Lemma clean_newline_free (text : pystr) :
  newline_free (replace 13 32 (replace 10 32 text)).
Proof.
  split.
  - intros [c [Hc Hin]]%in_map_iff.
    destruct (N.eqb_spec c 13); [discriminate|]. subst c.
    destruct (replace_spec 10 32 text) as (_ & _ & H). apply H; [discriminate | exact Hin].
  - destruct (replace_spec 13 32 (replace 10 32 text)) as (_ & _ & H).
    apply H. discriminate.
Qed.

Lemma clean_cleaned (text : pystr) : cleaned text (replace 13 32 (replace 10 32 text)).
Proof.
  destruct (replace_spec 10 32 text) as (L1 & N1 & _).
  destruct (replace_spec 13 32 (replace 10 32 text)) as (L2 & N2 & _).
  split; [congruence|].
  intros j c Hc. rewrite (N2 _ _ (N1 _ _ Hc)).
  destruct (N.eqb_spec c 10) as [->|]; reflexivity.
Qed.

Lemma rows_of_newline_free (data : list (pystr * Z)) :
  List.Forall (List.Forall newline_free) (rows_of data).
Proof.
  unfold rows_of. constructor.
  - repeat constructor; vm_compute; intros H; intuition discriminate.
  - apply List.Forall_forall. intros row [[text label] [<- _]]%in_map_iff.
    constructor; [apply clean_newline_free|]. constructor; [|constructor].
    apply str_of_int_newline_free.
Qed.

Lemma rows_of_row (data : list (pystr * Z)) (i : nat) (text : pystr) (label : Z) :
  nth_error data i = Some (text, label) ->
  exists clean,
    nth_error (rows_of data) (S i) = Some [clean; str_of_label label] /\
    cleaned text clean.
Proof.
  intros Hi. exists (replace 13 32 (replace 10 32 text)).
  split; [|apply clean_cleaned].
  unfold rows_of. simpl.
  rewrite (map_nth_error
             (fun s : pystr * Z =>
                [replace 13 32 (replace 10 32 (fst s)); str_of_label (snd s)]) _ _ Hi).
  reflexivity.
Qed.

(** ** Every generator returns *)

Create HintDb returns discriminated.

Section Generators.
Context {rng : Type} (Rnd : random_module rng) (Fmt : float_format).
Context (Hok : random_ok Rnd).

(** A generator body: binds, conditionals, loops and calls of primitives
    and of generators already known to return. *)
Ltac steps :=
  lazymatch goal with
  | |- returns _ (bind (append_if _ _ _ _) _) =>
      eapply returns_bind;
      [apply (returns_append_if Rnd); steps | intros ? _; steps]
  | |- returns _ (bind _ _) =>
      eapply returns_bind; [call | intros ? ?; cbv beta in *; steps]
  | |- returns _ (if ?b then _ else _) => destruct b; steps
  | |- returns _ (ret _) => apply returns_ret; exact I
  | |- returns _ _ => eapply returns_weaken; [call | intros; exact I]
  end
with call :=
  lazymatch goal with
  | |- returns _ (random_ _) => apply returns_random
  | |- returns _ (uniform_ _ _ _) =>
      apply (returns_uniform Rnd Hok); unfold Qle; simpl; lia
  | |- returns _ (randint _ _ _) => apply (returns_randint Rnd Hok); lia
  | |- returns _ (choice _ _) => apply (returns_choice Rnd Hok); discriminate
  | |- returns _ (choice_char _ _) => apply (returns_choice_char Rnd Hok); discriminate
  | |- returns _ (choices _ _ _) =>
      apply (returns_choices Rnd Hok); [discriminate | lia]
  | |- returns _ (sample _ _ _) =>
      apply (returns_sample Rnd Hok); simpl List.length; lia
  | |- returns _ (ret _) => apply returns_ret; exact I
  | |- returns _ (for_range _ _ _) =>
      apply (returns_for_range (fun _ => True)); [exact I | intros ? _; steps]
  | |- returns _ (if ?b then _ else _) => destruct b; steps
  | |- returns _ (bind _ _) => steps
  | |- _ => solve [eauto with returns nocore]
  end.

(** [random.choice(generators)()] over generators that return. *)
Ltac dispatch :=
  apply (returns_choose_call Rnd); [exact Hok | discriminate |];
  repeat (constructor; [solve [eauto with returns nocore]|]); constructor.

Lemma random_callsign_returns : returns (fun _ => True) (random_callsign Rnd).
Proof using Hok. unfold random_callsign. steps. Qed.
Hint Resolve random_callsign_returns : returns.

Lemma random_grid_returns : returns (fun _ => True) (random_grid Rnd).
Proof using Hok. unfold random_grid. steps. Qed.
Hint Resolve random_grid_returns : returns.

Lemma random_rst_returns : returns (fun _ => True) (random_rst Rnd).
Proof using Hok. unfold random_rst. steps. Qed.
Hint Resolve random_rst_returns : returns.

Lemma random_db_returns : returns (fun _ => True) (random_db Rnd).
Proof using Hok. unfold random_db. steps. Qed.
Hint Resolve random_db_returns : returns.

Lemma gen_rtty_cq_returns : returns (fun _ => True) (gen_rtty_cq Rnd).
Proof using Hok. unfold gen_rtty_cq. steps. Qed.

Lemma gen_rtty_qso_exchange_returns : returns (fun _ => True) (gen_rtty_qso_exchange Rnd).
Proof using Hok. unfold gen_rtty_qso_exchange. steps. Qed.

Lemma gen_rtty_contest_returns : returns (fun _ => True) (gen_rtty_contest Rnd).
Proof using Hok. unfold gen_rtty_contest. steps. Qed.

Lemma gen_rtty_wx_report_returns : returns (fun _ => True) (gen_rtty_wx_report Rnd).
Proof using Hok. unfold gen_rtty_wx_report. steps. Qed.

Lemma gen_rtty_beacon_returns : returns (fun _ => True) (gen_rtty_beacon Rnd).
Proof using Hok. unfold gen_rtty_beacon. steps. Qed.

Lemma gen_rtty_ragchew_returns : returns (fun _ => True) (gen_rtty_ragchew Rnd).
Proof using Hok. unfold gen_rtty_ragchew. steps. Qed.

Hint Resolve gen_rtty_cq_returns gen_rtty_qso_exchange_returns gen_rtty_contest_returns
  gen_rtty_wx_report_returns gen_rtty_beacon_returns gen_rtty_ragchew_returns : returns.

Lemma gen_rtty_returns : returns (fun _ => True) (gen_rtty Rnd).
Proof using Hok. unfold gen_rtty. dispatch. Qed.

Lemma gen_psk_cq_returns : returns (fun _ => True) (gen_psk_cq Rnd).
Proof using Hok. unfold gen_psk_cq. steps. Qed.

Lemma gen_psk_qso_returns : returns (fun _ => True) (gen_psk_qso Rnd).
Proof using Hok. unfold gen_psk_qso. steps. Qed.

Lemma gen_psk_ragchew_returns : returns (fun _ => True) (gen_psk_ragchew Rnd).
Proof using Hok. unfold gen_psk_ragchew. steps. Qed.

Lemma gen_psk_rig_info_returns : returns (fun _ => True) (gen_psk_rig_info Rnd).
Proof using Hok. unfold gen_psk_rig_info. steps. Qed.

Lemma gen_psk_wx_returns : returns (fun _ => True) (gen_psk_wx Rnd).
Proof using Hok. unfold gen_psk_wx. steps. Qed.

Lemma gen_psk_closing_returns : returns (fun _ => True) (gen_psk_closing Rnd).
Proof using Hok. unfold gen_psk_closing. steps. Qed.

Hint Resolve gen_psk_cq_returns gen_psk_qso_returns gen_psk_ragchew_returns
  gen_psk_rig_info_returns gen_psk_wx_returns gen_psk_closing_returns : returns.

Lemma gen_psk_returns : returns (fun _ => True) (gen_psk Rnd).
Proof using Hok. unfold gen_psk. dispatch. Qed.

Lemma gen_ft8_cq_returns : returns (fun _ => True) (gen_ft8_cq Rnd).
Proof using Hok. unfold gen_ft8_cq. steps. Qed.

Lemma gen_ft8_reply_returns : returns (fun _ => True) (gen_ft8_reply Rnd).
Proof using Hok. unfold gen_ft8_reply. steps. Qed.

Lemma gen_ft8_grid_returns : returns (fun _ => True) (gen_ft8_grid Rnd).
Proof using Hok. unfold gen_ft8_grid. steps. Qed.

Lemma gen_ft8_signal_returns : returns (fun _ => True) (gen_ft8_signal Rnd).
Proof using Hok. unfold gen_ft8_signal. steps. Qed.

Lemma gen_ft8_rrr_returns : returns (fun _ => True) (gen_ft8_rrr Rnd).
Proof using Hok. unfold gen_ft8_rrr. steps. Qed.

Lemma gen_ft8_73_returns : returns (fun _ => True) (gen_ft8_73 Rnd).
Proof using Hok. unfold gen_ft8_73. steps. Qed.

Lemma gen_ft8_contest_returns : returns (fun _ => True) (gen_ft8_contest Rnd).
Proof using Hok. unfold gen_ft8_contest. steps. Qed.

Hint Resolve gen_ft8_cq_returns gen_ft8_reply_returns gen_ft8_grid_returns
  gen_ft8_signal_returns gen_ft8_rrr_returns gen_ft8_73_returns
  gen_ft8_contest_returns : returns.

Lemma gen_ft8_returns : returns (fun _ => True) (gen_ft8 Rnd).
Proof using Hok. unfold gen_ft8. dispatch. Qed.

Lemma gen_rattle_position_returns : returns (fun _ => True) (gen_rattle_position Rnd Fmt).
Proof using Hok. unfold gen_rattle_position. steps. Qed.

Lemma gen_rattle_message_returns : returns (fun _ => True) (gen_rattle_message Rnd).
Proof using Hok. unfold gen_rattle_message. steps. Qed.

Lemma gen_rattle_status_returns : returns (fun _ => True) (gen_rattle_status Rnd).
Proof using Hok. unfold gen_rattle_status. steps. Qed.

Lemma gen_rattle_chat_returns : returns (fun _ => True) (gen_rattle_chat Rnd).
Proof using Hok. unfold gen_rattle_chat. steps. Qed.

Lemma gen_rattle_emergency_returns : returns (fun _ => True) (gen_rattle_emergency Rnd).
Proof using Hok. unfold gen_rattle_emergency. steps. Qed.

Hint Resolve gen_rattle_position_returns gen_rattle_message_returns
  gen_rattle_status_returns gen_rattle_chat_returns gen_rattle_emergency_returns : returns.

Lemma gen_rattlegram_returns : returns (fun _ => True) (gen_rattlegram Rnd Fmt).
Proof using Hok. unfold gen_rattlegram. dispatch. Qed.

Hint Resolve gen_rtty_returns gen_psk_returns gen_ft8_returns gen_rattlegram_returns
  : returns.

Lemma gen_garbage_random_ascii_returns :
  returns (fun _ => True) (gen_garbage_random_ascii Rnd).
Proof using Hok. unfold gen_garbage_random_ascii. steps. Qed.

Lemma gen_garbage_random_alpha_returns :
  returns (fun _ => True) (gen_garbage_random_alpha Rnd).
Proof using Hok. unfold gen_garbage_random_alpha. steps. Qed.

Lemma gen_garbage_punctuation_returns :
  returns (fun _ => True) (gen_garbage_punctuation Rnd).
Proof using Hok. unfold gen_garbage_punctuation. steps. Qed.

Lemma gen_garbage_random_spaced_returns :
  returns (fun _ => True) (gen_garbage_random_spaced Rnd).
Proof using Hok. unfold gen_garbage_random_spaced. steps. Qed.

Lemma gen_garbage_high_entropy_returns :
  returns (fun _ => True) (gen_garbage_high_entropy Rnd).
Proof using Hok. unfold gen_garbage_high_entropy. steps. Qed.

Lemma gen_garbage_numeric_returns : returns (fun _ => True) (gen_garbage_numeric Rnd).
Proof using Hok. unfold gen_garbage_numeric. steps. Qed.

Lemma gen_garbage_short_noise_returns :
  returns (fun _ => True) (gen_garbage_short_noise Rnd).
Proof using Hok. unfold gen_garbage_short_noise. steps. Qed.

Lemma gen_garbage_mixed_symbols_returns :
  returns (fun _ => True) (gen_garbage_mixed_symbols Rnd).
Proof using Hok. unfold gen_garbage_mixed_symbols. steps. Qed.

Lemma gen_garbage_garbled_rtty_returns :
  returns (fun _ => True) (gen_garbage_garbled_rtty Rnd).
Proof using Hok. unfold gen_garbage_garbled_rtty. steps. Qed.

Lemma gen_garbage_repeated_chars_returns :
  returns (fun _ => True) (gen_garbage_repeated_chars Rnd).
Proof using Hok.
  unfold gen_garbage_repeated_chars.
  eapply returns_bind; [call|]. intros char [c ->].
  eapply returns_bind; [call|]. intros repeats Hrepeats. cbv beta in Hrepeats.
  eapply returns_bind; [call|]. intros count _.
  eapply returns_weaken; [|intros; exact I].
  apply (returns_for_range (fun result => 1 <= len result)%Z).
  - rewrite str_mul_len; lia.
  - intros result Hlen. cbv beta in Hlen.
    eapply returns_bind; [call|]. intros pos Hpos. cbv beta in Hpos.
    eapply returns_bind; [call|]. intros x _.
    destruct (list_assign_some result pos x) as (ys & Hys & Hl);
      [unfold len in *; lia|].
    eapply returns_raise_if_none; [exact Hys|]. unfold len in *. lia.
Qed.

Lemma gen_garbage_corrupted_returns :
  returns (fun _ => True) (gen_garbage_corrupted Rnd Fmt).
Proof using Hok.
  unfold gen_garbage_corrupted.
  eapply returns_bind; [call|]. intros generator Hgen.
  eapply returns_bind.
  { simpl in Hgen. destruct Hgen as [<-|[<-|[<-|[<-|[]]]]]; eauto with returns nocore. }
  intros legit _. cbv zeta.
  eapply returns_bind; [call|]. intros corruption [Hlo _].
  assert (Hn : (0 <= int_of_float (inject_Z (len legit) * corruption))%Z).
  { apply int_of_float_nonneg. apply Qmult_le_0_compat.
    - change 0%Q with (inject_Z 0). rewrite <- Zle_Qle. apply Z.le_0_sub.
      unfold len. lia.
    - apply Qle_trans with (4 # 10)%Q; [discriminate | exact Hlo]. }
  eapply returns_bind.
  { apply (returns_sample Rnd Hok). rewrite range_length; unfold len in *; lia. }
  intros positions [_ Hpos].
  eapply returns_weaken; [|intros; exact I].
  apply (returns_for_each (fun result => len result = len legit)
           (fun pos => 0 <= pos < len legit)%Z).
  - eapply List.Forall_impl; [|exact Hpos]. intros pos. apply in_range_bounds.
  - reflexivity.
  - intros pos result Hp Hlen. cbv beta in Hp, Hlen.
    eapply returns_bind; [call|]. intros x _.
    destruct (list_assign_some result pos x) as (ys & Hys & Hl);
      [unfold len in *; lia|].
    eapply returns_raise_if_none; [exact Hys|]. unfold len in *. lia.
Qed.

Hint Resolve gen_garbage_random_ascii_returns gen_garbage_random_alpha_returns
  gen_garbage_punctuation_returns gen_garbage_repeated_chars_returns
  gen_garbage_corrupted_returns gen_garbage_random_spaced_returns
  gen_garbage_high_entropy_returns gen_garbage_numeric_returns
  gen_garbage_short_noise_returns gen_garbage_mixed_symbols_returns
  gen_garbage_garbled_rtty_returns : returns.

Lemma gen_garbage_returns : returns (fun _ => True) (gen_garbage Rnd Fmt).
Proof using Hok. unfold gen_garbage. dispatch. Qed.

(** ** The dataset *)

(** A loop of [generate_dataset] appends the texts of [n] successive calls
    of its generator, each with the label of the loop. *)
Lemma append_samples_drawn (generator : gen rng pystr) (label : Z) :
  returns (fun _ => True) generator ->
  forall (n : Z) (samples : list (pystr * Z)) (g : rng),
  exists texts g',
    append_samples n generator label samples g
    = Some (samples ++ labelled label texts, g') /\
    drawn generator g texts g' /\
    List.length texts = Z.to_nat n.
Proof using Type.
  intros Hgen n. unfold append_samples.
  generalize (Z.to_nat n) as k. intros k.
  induction k as [|k IH]; intros samples g.
  - exists [], g. simpl. unfold ret. rewrite app_nil_r.
    split; [reflexivity|]. split; [constructor | reflexivity].
  - destruct (Hgen g) as (text & g1 & Hg & _).
    destruct (IH (samples ++ [(text, label)]) g1) as (texts & g2 & Hrun & Hd & Hl).
    exists (text :: texts), g2. split; [|split].
    + simpl. unfold bind at 1. unfold bind at 1. rewrite Hg. unfold ret at 1.
      rewrite Hrun. rewrite <- app_assoc. reflexivity.
    + econstructor; eassumption.
    + simpl. rewrite Hl. reflexivity.
Qed.

(** The samples before the shuffle, block by block. *)
Lemma generate_samples_blocks :
  exists (rtty psk ft8 rattle garbage : list pystr) (g1 g2 g3 g4 g5 : rng),
    drawn (gen_rtty Rnd) (seed Rnd SEED) rtty g1 /\
    drawn (gen_psk Rnd) g1 psk g2 /\
    drawn (gen_ft8 Rnd) g2 ft8 g3 /\
    drawn (gen_rattlegram Rnd Fmt) g3 rattle g4 /\
    drawn (gen_garbage Rnd Fmt) g4 garbage g5 /\
    Z.of_nat (List.length rtty) = 12000%Z /\
    Z.of_nat (List.length psk) = 12000%Z /\
    Z.of_nat (List.length ft8) = 16000%Z /\
    Z.of_nat (List.length rattle) = 10000%Z /\
    Z.of_nat (List.length garbage) = 50000%Z /\
    generate_samples Rnd Fmt (seed Rnd SEED)
    = Some (labelled 1 rtty ++ labelled 1 psk ++ labelled 1 ft8
            ++ labelled 1 rattle ++ labelled 0 garbage, g5).
Proof using Hok.
  destruct (append_samples_drawn (gen_rtty Rnd) 1 gen_rtty_returns
              12000 [] (seed Rnd SEED)) as (rtty & g1 & R1 & D1 & L1).
  destruct (append_samples_drawn (gen_psk Rnd) 1 gen_psk_returns
              12000 ([] ++ labelled 1 rtty) g1) as (psk & g2 & R2 & D2 & L2).
  destruct (append_samples_drawn (gen_ft8 Rnd) 1 gen_ft8_returns
              16000 (([] ++ labelled 1 rtty) ++ labelled 1 psk) g2)
    as (ft8 & g3 & R3 & D3 & L3).
  destruct (append_samples_drawn (gen_rattlegram Rnd Fmt) 1 gen_rattlegram_returns
              10000 ((([] ++ labelled 1 rtty) ++ labelled 1 psk) ++ labelled 1 ft8) g3)
    as (rattle & g4 & R4 & D4 & L4).
  destruct (append_samples_drawn (gen_garbage Rnd Fmt) 0 gen_garbage_returns
              TOTAL_GARBAGE
              (((([] ++ labelled 1 rtty) ++ labelled 1 psk) ++ labelled 1 ft8)
               ++ labelled 1 rattle) g4)
    as (garbage & g5 & R5 & D5 & L5).
  exists rtty, psk, ft8, rattle, garbage, g1, g2, g3, g4, g5.
  repeat (split; [assumption|]).
  repeat (split; [first [rewrite L1 | rewrite L2 | rewrite L3 | rewrite L4 | rewrite L5];
                  unfold TOTAL_GARBAGE; lia|]).
  unfold generate_samples. cbv zeta.
  unfold bind at 1. rewrite R1. unfold bind at 1. rewrite R2.
  unfold bind at 1. rewrite R3. unfold bind at 1. rewrite R4.
  unfold bind at 1. rewrite R5. unfold ret.
  rewrite app_nil_l, <- !app_assoc. reflexivity.
Qed.

Lemma generate_dataset_some (samples : list (pystr * Z)) (g : rng) :
  generate_samples Rnd Fmt (seed Rnd SEED) = Some (samples, g) ->
  exists d,
    generate_dataset Rnd Fmt = Some d /\
    shuffled d = fst (shuffle Rnd samples g) /\
    train d = firstn (split_index (shuffled d)) (shuffled d) /\
    test d = skipn (split_index (shuffled d)) (shuffled d) /\
    train_rows d = rows_of (train d) /\
    test_rows d = rows_of (test d).
Proof using Type.
  intros H. unfold generate_dataset. rewrite H.
  destruct (shuffle Rnd samples g) as [s g']. eexists. split; [reflexivity|].
  simpl. repeat split; reflexivity.
Qed.

(** C4. Generation returns, and produces 100,000 samples: 12,000 RTTY,
    12,000 PSK31, 16,000 FT8 and 10,000 rattlegram texts with label 1, then
    50,000 garbage texts with label 0, drawn in this order from one random
    stream seeded with [SEED]; they are shuffled once, on that stream, and
    the shuffled list is cut, in its order, into the first 80,000 samples
    (train) and the remaining 20,000 (test). *)
Theorem generate_dataset_shape :
  exists (rtty psk ft8 rattle garbage : list pystr) (g1 g2 g3 g4 g5 : rng)
         (d : dataset),
    let samples :=
      labelled 1 rtty ++ labelled 1 psk ++ labelled 1 ft8
      ++ labelled 1 rattle ++ labelled 0 garbage in
    drawn (gen_rtty Rnd) (seed Rnd SEED) rtty g1 /\
    drawn (gen_psk Rnd) g1 psk g2 /\
    drawn (gen_ft8 Rnd) g2 ft8 g3 /\
    drawn (gen_rattlegram Rnd Fmt) g3 rattle g4 /\
    drawn (gen_garbage Rnd Fmt) g4 garbage g5 /\
    Z.of_nat (List.length rtty) = 12000%Z /\
    Z.of_nat (List.length psk) = 12000%Z /\
    Z.of_nat (List.length ft8) = 16000%Z /\
    Z.of_nat (List.length rattle) = 10000%Z /\
    Z.of_nat (List.length garbage) = 50000%Z /\
    generate_samples Rnd Fmt (seed Rnd SEED) = Some (samples, g5) /\
    Z.of_nat (List.length samples) = 100000%Z /\
    generate_dataset Rnd Fmt = Some d /\
    shuffled d = fst (shuffle Rnd samples g5) /\
    Permutation samples (shuffled d) /\
    train d = firstn (Z.to_nat 80000) (shuffled d) /\
    test d = skipn (Z.to_nat 80000) (shuffled d) /\
    train d ++ test d = shuffled d /\
    Z.of_nat (List.length (train d)) = 80000%Z /\
    Z.of_nat (List.length (test d)) = 20000%Z /\
    train_rows d = rows_of (train d) /\
    test_rows d = rows_of (test d).
Proof using Hok.
  destruct generate_samples_blocks
    as (rtty & psk & ft8 & rattle & garbage & g1 & g2 & g3 & g4 & g5
        & D1 & D2 & D3 & D4 & D5 & L1 & L2 & L3 & L4 & L5 & Hs).
  destruct (generate_dataset_some _ _ Hs) as (d & Hd & Hsh & Htr & Hte & Hrtr & Hrte).
  exists rtty, psk, ft8, rattle, garbage, g1, g2, g3, g4, g5, d.
  intros samples. fold samples in Hs, Hsh.
  assert (Hlen : Z.of_nat (List.length samples) = 100000%Z).
  { unfold samples. rewrite !List.length_app. unfold labelled.
    rewrite !List.length_map. lia. }
  assert (Hp : Permutation samples (shuffled d)).
  { rewrite Hsh. apply (shuffle_ok Rnd Hok). }
  assert (Hslen : Z.of_nat (List.length (shuffled d)) = 100000%Z).
  { rewrite <- (Permutation_length Hp). exact Hlen. }
  assert (Hidx : split_index (shuffled d) = Z.to_nat 80000).
  { unfold split_index. rewrite Hslen. reflexivity. }
  rewrite Hidx in Htr, Hte.
  repeat (split; [assumption|]).
  split; [rewrite Htr, Hte; apply firstn_skipn|].
  split; [rewrite Htr, length_firstn; lia|].
  split; [rewrite Hte, length_skipn; lia|].
  split; assumption.
Qed.

(** C6. Generation returns, and every field of every row written to the
    train and to the test table is free of line feeds and carriage returns:
    the text of a sample is written with each of the two replaced by a space
    and every other character kept. *)
Theorem rows_newline_free :
  exists d : dataset,
    generate_dataset Rnd Fmt = Some d /\
    List.Forall (List.Forall newline_free) (train_rows d) /\
    List.Forall (List.Forall newline_free) (test_rows d) /\
    (forall i text label, nth_error (train d) i = Some (text, label) ->
       exists clean,
         nth_error (train_rows d) (S i) = Some [clean; str_of_label label] /\
         cleaned text clean) /\
    (forall i text label, nth_error (test d) i = Some (text, label) ->
       exists clean,
         nth_error (test_rows d) (S i) = Some [clean; str_of_label label] /\
         cleaned text clean).
Proof using Hok.
  destruct generate_samples_blocks
    as (rtty & psk & ft8 & rattle & garbage & g1 & g2 & g3 & g4 & g5 & H).
  destruct H as (_ & _ & _ & _ & _ & _ & _ & _ & _ & _ & Hs).
  destruct (generate_dataset_some _ _ Hs) as (d & Hd & _ & _ & _ & Hrtr & Hrte).
  exists d. rewrite Hrtr, Hrte.
  split; [exact Hd|].
  split; [apply rows_of_newline_free|]. split; [apply rows_of_newline_free|].
  split; intros i text label Hi; apply rows_of_row, Hi.
Qed.
End Generators.

(** ** The small [random] module meets the assumptions *)

Lemma demo_random_ok : random_ok demo_random.
Proof.
  constructor; simpl.
  - intros a b g Hab. exists a, (S g).
    apply Z.leb_le in Hab as Hb. rewrite Hb. split; [reflexivity | lia].
  - intros A xs g Hne. destruct xs as [|x xs]; [congruence|].
    exists x, (S g). split; [reflexivity | left; reflexivity].
  - intros A xs k g Hne Hk. destruct xs as [|x xs]; [congruence|].
    exists (List.repeat x (Z.to_nat k)), (S g). split; [reflexivity|]. split.
    + rewrite List.repeat_length. lia.
    + apply List.Forall_forall. intros y Hy. apply List.repeat_spec in Hy.
      left. symmetry. exact Hy.
  - intros A xs k g [H0 H1]. exists (firstn (Z.to_nat k) xs), (S g).
    apply Z.leb_le in H0 as B0. apply Z.leb_le in H1 as B1. rewrite B0, B1.
    split; [reflexivity|]. split.
    + rewrite length_firstn. lia.
    + apply List.Forall_forall. intros y Hy.
      rewrite <- (firstn_skipn (Z.to_nat k) xs). apply in_or_app. left. exact Hy.
  - intros a b g Hab. split; [apply Qle_refl | exact Hab].
  - intros A xs g. apply Permutation_rev.
Qed.

Lemma generate_dataset_shape_witness :
  random_ok demo_random /\
  exists (rtty psk ft8 rattle garbage : list pystr) (g1 g2 g3 g4 g5 : nat)
         (d : dataset),
    let samples :=
      labelled 1 rtty ++ labelled 1 psk ++ labelled 1 ft8
      ++ labelled 1 rattle ++ labelled 0 garbage in
    drawn (gen_rtty demo_random) (seed demo_random SEED) rtty g1 /\
    drawn (gen_psk demo_random) g1 psk g2 /\
    drawn (gen_ft8 demo_random) g2 ft8 g3 /\
    drawn (gen_rattlegram demo_random demo_format) g3 rattle g4 /\
    drawn (gen_garbage demo_random demo_format) g4 garbage g5 /\
    Z.of_nat (List.length rtty) = 12000%Z /\
    Z.of_nat (List.length psk) = 12000%Z /\
    Z.of_nat (List.length ft8) = 16000%Z /\
    Z.of_nat (List.length rattle) = 10000%Z /\
    Z.of_nat (List.length garbage) = 50000%Z /\
    generate_samples demo_random demo_format (seed demo_random SEED)
    = Some (samples, g5) /\
    Z.of_nat (List.length samples) = 100000%Z /\
    generate_dataset demo_random demo_format = Some d /\
    shuffled d = fst (shuffle demo_random samples g5) /\
    Permutation samples (shuffled d) /\
    train d = firstn (Z.to_nat 80000) (shuffled d) /\
    test d = skipn (Z.to_nat 80000) (shuffled d) /\
    train d ++ test d = shuffled d /\
    Z.of_nat (List.length (train d)) = 80000%Z /\
    Z.of_nat (List.length (test d)) = 20000%Z /\
    train_rows d = rows_of (train d) /\
    test_rows d = rows_of (test d).
Proof.
  split; [exact demo_random_ok|].
  exact (generate_dataset_shape demo_random demo_format demo_random_ok).
Defined.

Lemma rows_newline_free_witness :
  random_ok demo_random /\
  exists d : dataset,
    generate_dataset demo_random demo_format = Some d /\
    List.Forall (List.Forall newline_free) (train_rows d) /\
    List.Forall (List.Forall newline_free) (test_rows d) /\
    (forall i text label, nth_error (train d) i = Some (text, label) ->
       exists clean,
         nth_error (train_rows d) (S i) = Some [clean; str_of_label label] /\
         cleaned text clean) /\
    (forall i text label, nth_error (test d) i = Some (text, label) ->
       exists clean,
         nth_error (test_rows d) (S i) = Some [clean; str_of_label label] /\
         cleaned text clean).
Proof.
  split; [exact demo_random_ok|].
  exact (rows_newline_free demo_random demo_format demo_random_ok).
Defined.

End GenerateFacts.

(* ===================================================================== *)
(** * Properties of the training entry point *)
(* ===================================================================== *)

Module PipelineFacts.
Import Py TrainModel.

Lemma Qlt_bool_iff (x y : Q) : Qlt_bool x y = true <-> (x < y)%Q.
Proof.
  unfold Qlt_bool. rewrite negb_true_iff. split.
  - intros H. apply Qnot_le_lt. intros Hle. apply Qle_bool_iff in Hle. congruence.
  - intros H. destruct (Qle_bool y x) eqn:E; [|reflexivity].
    apply Qle_bool_iff in E. exfalso. apply (Qlt_not_le _ _ H E).
Qed.

(** How [train] ends, step by step. *)
Lemma train_outcome (env : run_env) :
  snd (train env)
  = if classification_report_raises (y_test env) (y_pred env) 2 then Raised
    else if export_raises env then Raised
    else if negb (compile_returncode env =? 0)%Z then SysExit 1
    else if golden_raises env then Raised
    else Returned (accuracy_score (y_test env) (y_pred env)).
Proof.
  unfold train. cbv zeta.
  destruct (classification_report_raises _ _ _); [reflexivity|].
  destruct (export_raises env); [reflexivity|].
  destruct (negb (compile_returncode env =? 0)%Z); [reflexivity|].
  destruct (golden_raises env); reflexivity.
Qed.

Lemma train_returns (env : run_env) :
  steps_succeed env ->
  snd (train env) = Returned (accuracy_score (y_test env) (y_pred env)).
Proof.
  intros (Hr & He & Hc & Hg). rewrite train_outcome, Hr, He, Hc, Hg. reflexivity.
Qed.

(** The first line printed is the accuracy. *)
Lemma train_reports_accuracy (env : run_env) :
  hd_error (fst (train env)) = Some (Test_accuracy (accuracy_score (y_test env) (y_pred env))).
Proof.
  unfold train. cbv zeta.
  destruct (classification_report_raises _ _ _); [reflexivity|].
  destruct (Qlt_bool _ threshold), (export_raises env),
    (negb (compile_returncode env =? 0)%Z), (golden_raises env);
    reflexivity.
Qed.

(** The warning is printed when the accuracy is below the threshold and the
    report before it was computed. *)
Lemma train_warns (env : run_env) :
  List.In (Warning_below_target (accuracy_score (y_test env) (y_pred env)))
          (fst (train env)) <->
  (accuracy_score (y_test env) (y_pred env) < threshold)%Q /\
  classification_report_raises (y_test env) (y_pred env) 2 = false.
Proof.
  rewrite <- Qlt_bool_iff. unfold train. cbv zeta.
  destruct (classification_report_raises _ _ _);
    destruct (Qlt_bool _ _);
    destruct (export_raises env), (negb (compile_returncode env =? 0)%Z),
      (golden_raises env); simpl;
    split; intros H; try (split; reflexivity); try tauto;
    try (destruct H; discriminate);
    repeat (destruct H as [H|H]; try discriminate H); try contradiction.
Qed.

Example entry_point_pass :
  main {| first_row := (1, 1)%Z; more_rows := [(0, 0); (1, 1)]%Z; export_raises := false;
          compile_returncode := 0; golden_raises := false |} = 0%Z.
Proof. reflexivity. Qed.

(** Below the threshold [train] runs to its end and returns the accuracy;
    the status 1 is set by the entry point. *)
Example entry_point_gate :
  snd (train below_target) = Returned (2 # 3) /\ main below_target = 1%Z.
Proof. split; reflexivity. Qed.

(** One label only in the test table: the report raises, after the accuracy
    was printed, and the process ends with status 1 although every prediction
    is right. *)
Example entry_point_one_class :
  let env := {| first_row := (1, 1)%Z; more_rows := [(1, 1)%Z]; export_raises := false;
                compile_returncode := 0; golden_raises := false |} in
  train env = ([Test_accuracy (2 # 2); Classification_report_header], Raised) /\
  main env = 1%Z.
Proof. split; reflexivity. Qed.

(** Three labels: the report raises before the warning is printed. *)
Example entry_point_three_classes :
  let env := {| first_row := (2, 1)%Z; more_rows := [(1, 1); (0, 0)]%Z;
                export_raises := false; compile_returncode := 0;
                golden_raises := false |} in
  train env = ([Test_accuracy (2 # 3); Classification_report_header], Raised) /\
  main env = 1%Z.
Proof. split; reflexivity. Qed.

(** C7 (as amended). Run as the entry point, a measured accuracy below 0.95
    ends the process with a non-zero status; an accuracy of at least 0.95
    ends it with status zero when every step after the computation of the
    accuracy succeeds; and the accuracy is computed and printed either way,
    the gate never ending [train]: when [train] ends the process itself, the
    model compiler has failed. *)
Theorem exit_status (env : run_env) :
  let accuracy := accuracy_score (y_test env) (y_pred env) in
  ((accuracy < threshold)%Q -> main env <> 0%Z) /\
  ((threshold <= accuracy)%Q -> steps_succeed env -> main env = 0%Z) /\
  hd_error (fst (train env)) = Some (Test_accuracy accuracy) /\
  (forall status, snd (train env) = SysExit status -> compile_returncode env <> 0%Z).
Proof.
  intros accuracy. split; [|split; [|split]].
  - intros Hlt.
    assert (Hb : Qle_bool threshold accuracy = false).
    { destruct (Qle_bool threshold accuracy) eqn:E; [|reflexivity].
      apply Qle_bool_iff in E. exfalso. apply (Qlt_not_le _ _ Hlt E). }
    unfold main. rewrite train_outcome. fold accuracy.
    destruct (classification_report_raises _ _ _); [lia|].
    destruct (export_raises env); [lia|].
    destruct (negb (compile_returncode env =? 0)%Z); [lia|].
    destruct (golden_raises env); [lia|].
    rewrite Hb. lia.
  - intros Hge Hs. unfold main. rewrite (train_returns env Hs). fold accuracy.
    apply Qle_bool_iff in Hge. rewrite Hge. reflexivity.
  - apply train_reports_accuracy.
  - intros status. rewrite train_outcome.
    destruct (classification_report_raises _ _ _); [discriminate|].
    destruct (export_raises env); [discriminate|].
    destruct (Z.eqb_spec (compile_returncode env) 0) as [E|E]; simpl; [|intros _; exact E].
    destruct (golden_raises env); discriminate.
Qed.

Lemma exit_status_witness :
  ((accuracy_score (y_test below_target) (y_pred below_target) < threshold)%Q /\
   main below_target <> 0%Z) /\
  ((threshold <= accuracy_score (y_test compile_success) (y_pred compile_success))%Q /\
   steps_succeed compile_success /\ main compile_success = 0%Z) /\
  (snd (train compile_failure) = SysExit 1 /\ compile_returncode compile_failure <> 0%Z).
Proof.
  assert (Hlt : (accuracy_score (y_test below_target) (y_pred below_target) < threshold)%Q)
    by reflexivity.
  assert (Hge : (threshold <= accuracy_score (y_test compile_success)
                                             (y_pred compile_success))%Q)
    by (vm_compute; discriminate).
  assert (Hs : steps_succeed compile_success) by (repeat split; reflexivity).
  assert (He : snd (train compile_failure) = SysExit 1) by reflexivity.
  split; [split; [exact Hlt|]|split; [split; [exact Hge|split; [exact Hs|]]|split; [exact He|]]].
  - exact (proj1 (exit_status below_target) Hlt).
  - exact (proj1 (proj2 (exit_status compile_success)) Hge Hs).
  - exact (proj2 (proj2 (proj2 (exit_status compile_failure))) 1%Z He).
Defined.

(** C7, refuted as stated: every prediction is right, so the accuracy is 1,
    but the model compiler returns 1 and the process ends with status 1. *)
Lemma gate_passed_compile_failed :
  (threshold <= accuracy_score (y_test compile_failure) (y_pred compile_failure))%Q /\
  main compile_failure = 1%Z.
Proof. split; [vm_compute; discriminate | reflexivity]. Qed.

End PipelineFacts.
